(** * gecko: a Gecko code builder (gecko.go)

    A shallow embedding of [gecko.go] and the properties of its encoder,
    instruction packer, folder resolver and GCT serializer.

    Go values are modelled as follows.
    - [string] is a sequence of bytes: Rocq's [string] (one [ascii] per byte).
    - [[]byte] is a slice over a backing array: the visible elements and the
      cells of the array that lie between [len] and [cap] (type [GoBytes]).
    - [uint64] is a [Z] reduced modulo [2^64] after every operation.
    - [log.Panic], run-time panics and [os.Exit] are the three ways a call can
      fail to return: type [Outcome].
    - the file system, the external assembler and the command line are the
      fields of an environment record [Env]. *)

From Stdlib.Strings Require Import String Ascii Byte.
From Stdlib Require Import List ZArith NArith Bool Arith Lia.
Import ListNotations.

Local Open Scope string_scope.
Local Open Scope list_scope.
Local Open Scope nat_scope.

(** String concatenation, kept apart from the concatenation of lists. *)
Infix "+++" := String.append (right associativity, at level 60).

(** ** Outcomes of a call *)

(** Errors of the Go standard library that the program looks at or prints. *)
Inductive GoError : Type :=
| ErrSyntax                      (* strconv.ErrSyntax *)
| ErrRange                       (* strconv.ErrRange *)
| InvalidByteError (c : ascii)   (* hex.InvalidByteError *)
| ErrLength                      (* hex.ErrLength *)
| OsError.                       (* any error of package os / ioutil *)

(** The value a panic carries: the text handed to [log.Panic] (with the
    error printed after it, when there is one) or a run-time error. *)
Inductive PanicValue : Type :=
| LogPanic (msg : string) (err : option GoError)
| RuntimeError (msg : string).

Inductive Outcome (A : Type) : Type :=
| Ok (a : A)
| Panic (p : PanicValue)
| Exit (code : Z).

Arguments Ok {A} a.
Arguments Panic {A} p.
Arguments Exit {A} code.

Definition bind {A B : Type} (m : Outcome A) (k : A -> Outcome B) : Outcome B :=
  match m with
  | Ok a => k a
  | Panic p => Panic p
  | Exit c => Exit c
  end.

Notation "x <- m ;; k" := (bind m (fun x => k))
  (at level 61, m at next level, right associativity).

Definition isOk {A : Type} (m : Outcome A) : bool :=
  match m with Ok _ => true | _ => false end.

(** ** Byte slices *)

(** A slice of bytes: [elems] are the cells [0 .. len), [spare] the cells
    [len .. cap) of the backing array, which a slice expression may expose. *)
Record GoBytes : Type := mkBytes { elems : list byte; spare : list byte }.

Definition len (s : GoBytes) : nat := length (elems s).
Definition cap (s : GoBytes) : nat := length (elems s) + length (spare s).

(** [append(s, xs...)]: in place when the capacity allows it, otherwise into a
    fresh zeroed array whose capacity [grow (cap s) (len s + len xs)] is the
    run-time's choice (never less than what is needed). *)
Definition append (grow : nat -> nat -> nat) (s : GoBytes) (xs : list byte) : GoBytes :=
  let needed := len s + length xs in
  if needed <=? cap s
  then mkBytes (elems s ++ xs) (skipn (length xs) (spare s))
  else mkBytes (elems s ++ xs)
               (repeat x00 (Nat.max needed (grow (cap s) needed) - needed)).

Definition boundsError : PanicValue := RuntimeError "slice bounds out of range".
Definition indexError : PanicValue := RuntimeError "index out of range".

(** [s[i:j]] on a byte slice. Go checks [0 <= i <= j <= cap(s)]: the upper
    bound of a slice expression on a slice is its capacity, not its length,
    so a slice expression can reach cells beyond [len]. *)
Definition slice (s : GoBytes) (i j : nat) : Outcome GoBytes :=
  if (i <=? j) && (j <=? cap s)
  then let arr := elems s ++ spare s in
       Ok (mkBytes (firstn (j - i) (skipn i arr)) (skipn j arr))
  else Panic boundsError.

(** [s[i:j]] and [s[i:]] on a string: the bounds are checked against [len]. *)
Definition str_slice (s : string) (i j : nat) : Outcome string :=
  if (i <=? j) && (j <=? String.length s)
  then Ok (substring i (j - i) s)
  else Panic boundsError.

Definition str_from (s : string) (i : nat) : Outcome string :=
  str_slice s i (String.length s).

(** ** Package strings *)

Fixpoint str_map (f : ascii -> ascii) (s : string) : string :=
  match s with
  | EmptyString => EmptyString
  | String c r => String (f c) (str_map f r)
  end.

Fixpoint str_forallb (f : ascii -> bool) (s : string) : bool :=
  match s with
  | EmptyString => true
  | String c r => f c && str_forallb f r
  end.

Definition isASCII (c : ascii) : bool := (N_of_ascii c <? 128)%N.

Definition upperASCII (c : ascii) : ascii :=
  if ((97 <=? N_of_ascii c) && (N_of_ascii c <=? 122))%N
  then ascii_of_N (N_of_ascii c - 32)
  else c.

(** [strings.ToUpper]: the ASCII path of the library; strings with a byte at
    or above 0x80 go through the Unicode tables, here [unicodeUpper]. *)
Definition ToUpper (unicodeUpper : string -> string) (s : string) : string :=
  if str_forallb isASCII s then str_map upperASCII s else unicodeUpper s.

(** [strings.Join] is [String.concat]. *)
Definition Join (elts : list string) (sep : string) : string := String.concat sep elts.

(** ** Package encoding/hex *)

Definition hextable : string := "0123456789abcdef".

Definition tableChar (table : string) (n : N) : ascii :=
  match String.get (N.to_nat n) table with
  | Some c => c
  | None => "0"%char
  end.

(** [hex.EncodeToString]: two characters of [hextable] per byte. *)
Fixpoint EncodeToString (src : list byte) : string :=
  match src with
  | [] => EmptyString
  | v :: r =>
      String (tableChar hextable (N.shiftr (Byte.to_N v) 4))
        (String (tableChar hextable (N.land (Byte.to_N v) 15)) (EncodeToString r))
  end.

(** The library's [reverseHexTable]: the value of a hex digit, 0xff otherwise. *)
Definition fromHexChar (c : ascii) : N :=
  let n := N_of_ascii c in
  if ((48 <=? n) && (n <=? 57))%N then (n - 48)%N
  else if ((97 <=? n) && (n <=? 102))%N then (n - 97 + 10)%N
  else if ((65 <=? n) && (n <=? 70))%N then (n - 65 + 10)%N
  else 255%N.

Definition byteOfN (n : N) : byte :=
  match Byte.of_N n with Some b => b | None => x00 end.

(** [hex.DecodeString]: the bytes decoded so far and the error, if any. *)
Fixpoint DecodeString (s : string) : list byte * option GoError :=
  match s with
  | EmptyString => ([], None)
  | String p EmptyString =>
      if (15 <? fromHexChar p)%N then ([], Some (InvalidByteError p))
      else ([], Some ErrLength)
  | String p (String q r) =>
      let a := fromHexChar p in
      let b := fromHexChar q in
      if (15 <? a)%N then ([], Some (InvalidByteError p))
      else if (15 <? b)%N then ([], Some (InvalidByteError q))
      else let '(bs, err) := DecodeString r in
           (byteOfN (N.lor (N.shiftl a 4) b) :: bs, err)
  end.

(** ** Package strconv *)

Definition wrap64 (z : Z) : Z := (z mod 2 ^ 64)%Z.
Definition maxUint64 : Z := (2 ^ 64 - 1)%Z.

(** The digit a character stands for in [ParseUint] (before the base check). *)
Definition digitVal (c : ascii) : option Z :=
  let n := N_of_ascii c in
  if ((48 <=? n) && (n <=? 57))%N then Some (Z.of_N (n - 48))
  else if ((97 <=? n) && (n <=? 122))%N then Some (Z.of_N (n - 97 + 10))
  else if ((65 <=? n) && (n <=? 90))%N then Some (Z.of_N (n - 65 + 10))
  else None.

Fixpoint parseDigits (cs : string) (n base cutoff maxVal : Z) : Z * option GoError :=
  match cs with
  | EmptyString => (n, None)
  | String c r =>
      match digitVal c with
      | None => (0%Z, Some ErrSyntax)
      | Some d =>
          if (base <=? d)%Z then (0%Z, Some ErrSyntax)
          else if (cutoff <=? n)%Z then (maxVal, Some ErrRange)
          else
            let n' := wrap64 (n * base) in
            let n1 := wrap64 (n' + d) in
            if ((n1 <? n') || (maxVal <? n1))%Z then (maxVal, Some ErrRange)
            else parseDigits r n1 base cutoff maxVal
      end
  end.

(** [strconv.ParseUint(s, base, bitSize)] for an explicit base in 2..36 (the
    program calls it with base 16 and bitSize 32): the value and the error.
    A syntax error comes with the value 0, a range error with the largest
    value of [bitSize] bits. *)
Definition ParseUint (s : string) (base bitSize : Z) : Z * option GoError :=
  match s with
  | EmptyString => (0%Z, Some ErrSyntax)
  | _ => parseDigits s 0 base (maxUint64 / base + 1)%Z (2 ^ bitSize - 1)%Z
  end.

(** ** Package fmt *)

Definition udigits : string := "0123456789ABCDEF".

(** The hex digits of [v], least significant first, at most [fuel] of them
    (16 for a 64-bit value). *)
Fixpoint hexDigitsLE (fuel : nat) (v : Z) : list Z :=
  match fuel with
  | O => []
  | S f => (v mod 16)%Z :: (if (v / 16 =? 0)%Z then [] else hexDigitsLE f (v / 16)%Z)
  end.

Definition udigit (d : Z) : ascii := tableChar udigits (Z.to_N d).

(** [fmt.Sprintf("%0<width>X", v)] for an unsigned 64-bit or a non-negative
    [int] value: upper-case hex digits, padded on the left with zeros. *)
Definition SprintfX (width : nat) (v : Z) : string :=
  let ds := hexDigitsLE 16 v in
  string_of_list_ascii (map udigit (rev (ds ++ repeat 0%Z (width - length ds)))).

(** ** Package bytes and package path/filepath *)

Fixpoint isPrefix (sep s : list byte) : bool :=
  match sep, s with
  | [], _ => true
  | _ :: _, [] => false
  | x :: sep', y :: s' => Byte.eqb x y && isPrefix sep' s'
  end.

(** [bytes.Index(s, sep)]: the first position of [sep] in [s]; Go's -1 is
    [None]. *)
Fixpoint Index (s sep : list byte) : option nat :=
  if isPrefix sep s then Some 0
  else match s with
       | [] => None
       | _ :: r => option_map S (Index r sep)
       end.

Definition isPathSeparator (goos : string) (c : ascii) : bool :=
  Ascii.eqb c "/" || (String.eqb goos "windows" && Ascii.eqb c "\").

Fixpoint str_existsb (f : ascii -> bool) (s : string) : bool :=
  match s with
  | EmptyString => false
  | String c r => f c || str_existsb f r
  end.

(** [filepath.Ext(path)]: the suffix that starts at the last dot of the last
    element of [path], empty when that element has no dot. *)
Fixpoint Ext (goos : string) (path : string) : string :=
  match path with
  | EmptyString => EmptyString
  | String c r =>
      match Ext goos r with
      | EmptyString =>
          if str_existsb (isPathSeparator goos) r then EmptyString
          else if Ascii.eqb c "." then path
          else EmptyString
      | e => e
      end
  end.

(** * The program *)

(** ** Configuration (lines 19-50) *)

Record GeckoCode : Type := mkGeckoCode {
  Type_ : string;
  Address : string;
  TargetAddress : string;
  Annotation : string;
  IsRecursive : bool;
  SourceFile : string;
  SourceFolder : string;
  Value : string
}.

Record CodeDescription : Type := mkCodeDescription {
  Name : string;
  Authors : list string;
  Description : list string;
  Build : list GeckoCode
}.

Record Config : Type := mkConfig {
  OutputFiles : list string;
  Codes : list CodeDescription
}.

Definition Replace : string := "replace".
Definition Inject : string := "inject".
Definition ReplaceCodeBlock : string := "replaceCodeBlock".
Definition Branch : string := "branch".
Definition BranchAndLink : string := "branchAndLink".
Definition InjectFolder : string := "injectFolder".
Definition ReplaceBinary : string := "replaceBinary".

(** ** The world outside the program *)

(** What [ioutil.ReadDir] finds below a folder: an error, or the entries in
    the order the file system reports them, each with its name and, when it
    is a directory, what reading that directory gives. *)
#[warnings="-register-all"]
Inductive Dir : Type :=
| DirError
| DirEntries (entries : list (string * option Dir)).

(** Induction on a folder and all the folders below it. *)
Fixpoint Dir_nested_ind (P : Dir -> Prop)
    (Herr : P DirError)
    (Hdir : forall contents,
        (forall name sub, In (name, Some sub) contents -> P sub) -> P (DirEntries contents))
    (d : Dir) {struct d} : P d :=
  match d with
  | DirError => Herr
  | DirEntries contents =>
      Hdir contents
        ((fix below (l : list (string * option Dir)) :
            forall name sub, In (name, Some sub) l -> P sub :=
            match l with
            | [] => fun _ _ H => match H with end
            | (n, None) :: r =>
                fun name sub H =>
                  match H with
                  | or_introl Heq => match Heq with eq_refl => I end
                  | or_intror Hin => below r name sub Hin
                  end
            | (n, Some d') :: r =>
                fun name sub H =>
                  match H with
                  | or_introl Heq =>
                      match Heq in (_ = e) return
                            match snd e with Some s => P s | None => True end
                      with eq_refl => Dir_nested_ind P Herr Hdir d' end
                  | or_intror Hin => below r name sub Hin
                  end
            end) contents)
  end.

(** What running the assembler (and [objcopy]) on the temporary source file
    and reading [a.out] back gives. *)
Inductive Toolchain : Type :=
| ToolFailed            (* a subprocess ends with an error *)
| AOutUnreadable        (* the tools ran, a.out cannot be read *)
| AOut (contents : GoBytes).

Record Env : Type := mkEnv {
  (* os.Args and runtime.GOOS *)
  Args : list string;
  GOOS : string;
  (* the run-time's choice of capacity when append reallocates *)
  growslice : nat -> nat -> nat;
  (* strings.ToUpper on a string that is not pure ASCII *)
  unicodeUpper : string -> string;
  (* filepath.Join of a folder and a name; it is empty only when both are *)
  filepath_Join : string -> string -> string;
  Join_nonempty : forall folder name, name <> "" -> filepath_Join folder name <> "";
  (* ioutil.ReadFile: None on error *)
  ReadFile : string -> option GoBytes;
  (* ioutil.WriteFile of the temporary source asm-to-compile.asm succeeds *)
  tempWritable : bool;
  (* ioutil.WriteFile of an output file succeeds *)
  writable : string -> bool;
  (* the external assembler on the (normalized) source text *)
  toolchain : list byte -> Toolchain;
  (* ioutil.ReadDir of a folder, with what lies below it *)
  ReadDir : string -> Dir;
  (* os.Open of a path, then the first line a bufio.Scanner reads from it:
     None when Open fails, the empty string when Scan finds no line *)
  firstLineOf : string -> option string;
  (* json.Unmarshal of the bytes of codes.json into a Config: None on error *)
  Unmarshal : list byte -> option Config
}.

(** What the process leaves behind: the global [output] and the output files
    it wrote, oldest first; a file whose write failed is not among them. *)
Record World : Type := mkWorld {
  output : list string;
  written : list (string * list byte)
}.

Record Process : Type := mkProcess {
  status : Z;
  final : World
}.

Section Program.

Variable E : Env.

Definition upper (s : string) : string := ToUpper (unicodeUpper E) s.
Definition app_bytes (s : GoBytes) (xs : list byte) : GoBytes := append (growslice E) s xs.

(** ** Encoder (lines 161-200) *)

Definition generateReplaceCodeLine (address value : string) : Outcome string :=
  a <- str_from address 2 ;;
  Ok ("04" +++ upper a +++ " " +++ upper value).

(** Lines 175-191 of [generateBranchCodeLine]: what follows the parsing. *)
Definition branchLine (address : string) (addressUint targetAddressUint : Z)
    (shouldLink : bool) : Outcome string :=
  let addressDiff := wrap64 (targetAddressUint - addressUint) in
  let prefix := if (addressDiff <? 0)%Z then "4B" else "48" in
  let addressDiff := if shouldLink then wrap64 (addressDiff + 1) else addressDiff in
  let addressDiffStr := SprintfX 6 addressDiff in
  addressDiffStr <- str_from addressDiffStr (String.length addressDiffStr - 6) ;;
  a <- str_from address 2 ;;
  Ok ("04" +++ upper a +++ " " +++ prefix +++ addressDiffStr).

Definition generateBranchCodeLine (address targetAddress : string) (shouldLink : bool)
    : Outcome string :=
  a <- str_from address 2 ;;
  let '(addressUint, err) := ParseUint a 16 32 in
  t <- str_from targetAddress 2 ;;
  let '(targetAddressUint, err) := ParseUint t 16 32 in
  match err with
  | Some e => Panic (LogPanic "Failed to parse address or target address." (Some e))
  | None => branchLine address addressUint targetAddressUint shouldLink
  end.

Definition addLineAnnotation (line annotation : string) : string :=
  if String.eqb annotation "" then line
  else line +++ " #" +++ annotation.

(** [lines[0] = addLineAnnotation(lines[0], annotation)]. *)
Definition annotateFirst (lines : list string) (annotation : string)
    : Outcome (list string) :=
  match lines with
  | [] => Panic indexError
  | l0 :: r => Ok (addLineAnnotation l0 annotation :: r)
  end.

(** ** Source resolver: the assembler (lines 368-432) *)

Definition nl : string := String (ascii_of_N 10) EmptyString.
Definition crlf : list byte := [x0d; x0a].
Definition symtabMarker : list byte := [x00; x2e; x73; x79; x6d; x74; x61; x62].

Definition compile (file : string) : Outcome GoBytes :=
  match ReadFile E file with
  | None => Panic (LogPanic ("Failed to read asm file: " +++ file +++ nl) (Some OsError))
  | Some asmContents =>
      let asmContents := app_bytes asmContents crlf in
      if negb (tempWritable E)
      then Panic (LogPanic ("Failed to write temporary asm file" +++ nl) (Some OsError))
      else if String.eqb (GOOS E) "windows" then
        match toolchain E (elems asmContents) with
        | ToolFailed => Exit 1
        | AOutUnreadable =>
            Panic (LogPanic ("Failed to read compiled file " +++ file +++ nl) (Some OsError))
        | AOut contents =>
            match Index (elems contents) symtabMarker with
            | None => Panic boundsError
            | Some codeEndIndex => slice contents 52 codeEndIndex
            end
        end
      else if String.eqb (GOOS E) "linux" || String.eqb (GOOS E) "darwin" then
        match toolchain E (elems asmContents) with
        | ToolFailed => Exit 1
        | AOutUnreadable =>
            Panic (LogPanic ("Failed to read compiled file " +++ file +++ nl) (Some OsError))
        | AOut contents => Ok contents
        end
      else Panic (LogPanic ("Platform unsupported" +++ nl) None)
  end.

(** ** Instruction packer and multi-line encoders (lines 281-366) *)

(** Lines 302-306: the padding of an injected block (mode A). *)
Definition packInjection (instructions : GoBytes) : GoBytes :=
  if len instructions mod 8 =? 0
  then app_bytes instructions [x60; x00; x00; x00; x00; x00; x00; x00]
  else app_bytes instructions [x00; x00; x00; x00].

(** Lines 326-328 and 353-355: the padding of a replaced block (mode B). *)
Definition packBlock (instructions : GoBytes) : GoBytes :=
  if negb (len instructions mod 8 =? 0)
  then app_bytes instructions [x60; x00; x00; x00]
  else instructions.

(** The loop [for i := 0; i < len(instructions); i += 8] that the three
    encoders share, started at [i] with the lines built so far. No more than
    [len instructions] rounds are ever needed, which is the [fuel] callers
    give. *)
Fixpoint recordLines (fuel : nat) (instructions : GoBytes) (i : nat) (lines : list string)
    : Outcome (list string) :=
  if len instructions <=? i then Ok lines
  else match fuel with
       | O => Ok lines
       | S fuel' =>
           l <- slice instructions i (i + 4) ;;
           let left := upper (EncodeToString (elems l)) in
           r <- slice instructions (i + 4) (i + 8) ;;
           let right := upper (EncodeToString (elems r)) in
           recordLines fuel' instructions (i + 8) (lines ++ [left +++ " " +++ right])
       end.

Definition generateInjectionCodeLines (address file : string) : Outcome (list string) :=
  instructions <- compile file ;;
  let instructionLen := len instructions in
  if instructionLen =? 0
  then Panic (LogPanic ("Did not find any code in file: " +++ file +++ nl) None)
  else if instructionLen =? 4 then
    w <- slice instructions 0 4 ;;
    let instructionStr := EncodeToString (elems w) in
    replaceLine <- generateReplaceCodeLine address instructionStr ;;
    Ok [replaceLine]
  else
    let instructions := packInjection instructions in
    a <- str_from address 2 ;;
    let header := "C2" +++ upper a +++ " " +++ SprintfX 8 (Z.of_nat (len instructions / 8)) in
    recordLines (len instructions) instructions 0 [header].

(** Lines 330-338 and 357-365: header and records of a replaced block. *)
Definition blockLines (address : string) (instructions : GoBytes) : Outcome (list string) :=
  let instructions := packBlock instructions in
  a <- str_from address 2 ;;
  let header := "06" +++ upper a +++ " " +++ SprintfX 8 (Z.of_nat (len instructions)) in
  recordLines (len instructions) instructions 0 [header].

Definition generateReplaceCodeBlockLines (address file : string) : Outcome (list string) :=
  instructions <- compile file ;;
  blockLines address instructions.

Definition generateReplaceBinaryLines (address file : string) : Outcome (list string) :=
  match ReadFile E file with
  | None => Panic (LogPanic ("Failed to read binary file " +++ file +++ nl) (Some OsError))
  | Some contents => blockLines address contents
  end.

(** ** Source resolver: folders (lines 202-279) *)

Definition addressErrorMsg (filePath : string) : string :=
  "File at " +++ filePath +++
  " needs to specify the 4 byte injection address at the end of the first line of the file"
  +++ nl.

(** The closure [indicateAddressError]; the text of [err], when given, ends
    the message. *)
Definition indicateAddressError (filePath : string) (err : option GoError)
    : Outcome (list string) :=
  Panic (LogPanic (addressErrorMsg filePath) err).

(** One round of the first loop, for an entry whose extension is ".asm". *)
Definition injectFile (folder fileName : string) : Outcome (list string) :=
  let filePath := filepath_Join E folder fileName in
  match firstLineOf E filePath with
  | None => Panic (LogPanic ("Failed to read file at " +++ filePath +++ nl) (Some OsError))
  | Some firstLine =>
      let lineLength := String.length firstLine in
      if lineLength <? 8 then indicateAddressError filePath None
      else
        address <- str_from firstLine (lineLength - 8) ;;
        match snd (DecodeString address) with
        | Some err => indicateAddressError filePath (Some err)
        | None =>
            fileLines <- generateInjectionCodeLines address filePath ;;
            annotateFirst fileLines filePath
        end
  end.

Fixpoint filesLoop (folder : string) (contents : list (string * option Dir))
    (lines : list string) : Outcome (list string) :=
  match contents with
  | [] => Ok lines
  | (fileName, _) :: rest =>
      if negb (String.eqb (Ext (GOOS E) fileName) ".asm")
      then filesLoop folder rest lines
      else fileLines <- injectFile folder fileName ;;
           filesLoop folder rest (lines ++ fileLines)
  end.

(** The second loop, over the entries that are directories; [self] is the
    recursive call. *)
Fixpoint dirsLoop (self : string -> Dir -> Outcome (list string)) (folder : string)
    (contents : list (string * option Dir)) (lines : list string) : Outcome (list string) :=
  match contents with
  | [] => Ok lines
  | (_, None) :: rest => dirsLoop self folder rest lines
  | (folderName, Some sub) :: rest =>
      folderLines <- self (filepath_Join E folder folderName) sub ;;
      dirsLoop self folder rest (lines ++ folderLines)
  end.

(** [generateInjectionFolderLines folder dir isRecursive], where [dir] is
    what [ioutil.ReadDir(folder)] gives. *)
Fixpoint generateInjectionFolderLines (folder : string) (dir : Dir) (isRecursive : bool)
    {struct dir} : Outcome (list string) :=
  match dir with
  | DirError => Panic (LogPanic "Failed to read directory." (Some OsError))
  | DirEntries contents =>
      lines <- filesLoop folder contents [] ;;
      if isRecursive
      then dirsLoop (fun p d => generateInjectionFolderLines p d isRecursive)
                    folder contents lines
      else Ok lines
  end.

(** ** Line sequencer (lines 98-159) *)

Definition generateHeaderLines (desc : CodeDescription) : list string :=
  let authorString := Join (Authors desc) ", " in
  let result := ["$" +++ Name desc +++ " [" +++ authorString +++ "]"] in
  fold_left (fun result line => result ++ ["*" +++ line]) (Description desc) result.

(** The body of the [switch] for one entry: the lines it adds to [result]. *)
Definition codeLinesOf (geckoCode : GeckoCode) : Outcome (list string) :=
  let ty := Type_ geckoCode in
  if String.eqb ty Replace then
    line <- generateReplaceCodeLine (Address geckoCode) (Value geckoCode) ;;
    Ok [addLineAnnotation line (Annotation geckoCode)]
  else if String.eqb ty Inject then
    lines <- generateInjectionCodeLines (Address geckoCode) (SourceFile geckoCode) ;;
    annotateFirst lines (Annotation geckoCode)
  else if String.eqb ty ReplaceCodeBlock then
    lines <- generateReplaceCodeBlockLines (Address geckoCode) (SourceFile geckoCode) ;;
    annotateFirst lines (Annotation geckoCode)
  else if String.eqb ty ReplaceBinary then
    lines <- generateReplaceBinaryLines (Address geckoCode) (SourceFile geckoCode) ;;
    annotateFirst lines (Annotation geckoCode)
  else if String.eqb ty Branch || String.eqb ty BranchAndLink then
    let shouldLink := String.eqb ty BranchAndLink in
    line <- generateBranchCodeLine (Address geckoCode) (TargetAddress geckoCode) shouldLink ;;
    Ok [addLineAnnotation line (Annotation geckoCode)]
  else if String.eqb ty InjectFolder then
    generateInjectionFolderLines (SourceFolder geckoCode)
      (ReadDir E (SourceFolder geckoCode)) (IsRecursive geckoCode)
  else Ok [].

Fixpoint codeLinesLoop (build : list GeckoCode) (result : list string)
    : Outcome (list string) :=
  match build with
  | [] => Ok result
  | geckoCode :: rest =>
      lines <- codeLinesOf geckoCode ;;
      codeLinesLoop rest (result ++ lines)
  end.

Definition generateCodeLines (desc : CodeDescription) : Outcome (list string) :=
  codeLinesLoop (Build desc) [].

(** [buildBody] grows the global [output]; a failure leaves it as it was when
    the failing call started. *)
Fixpoint buildBody (codes : list CodeDescription) (w : World) : Outcome unit * World :=
  match codes with
  | [] => (Ok tt, w)
  | code :: rest =>
      let w := mkWorld (output w ++ generateHeaderLines code) (written w) in
      match generateCodeLines code with
      | Ok codeLines =>
          buildBody rest (mkWorld ((output w ++ codeLines) ++ [""]) (written w))
      | Panic p => (Panic p, w)
      | Exit c => (Exit c, w)
      end
  end.

(** ** Serializer (lines 434-472) *)

(** [ioutil.WriteFile(outputFile, data, 0644)], whose error the program never
    looks at: a call that succeeds leaves the file, recorded in [written]; a
    call that fails leaves nothing and goes unnoticed. *)
Definition WriteFile (outputFile : string) (data : list byte) (w : World) : World :=
  if writable E outputFile
  then mkWorld (output w) (written w ++ [(outputFile, data)])
  else w.

Definition writeTextOutput (outputFile : string) (w : World) : Outcome unit * World :=
  let fullText := Join (output w) nl in
  (Ok tt, WriteFile outputFile (list_byte_of_string fullText) w).

Definition gctHeader : list byte := [x00; xd0; xc0; xde; x00; xd0; xc0; xde].
Definition gctFooter : list byte := [xf0; x00; x00; x00; x00; x00; x00; x00].

(** The loop of [writeGctOutput] over the lines of [output]. *)
Fixpoint gctLoop (lines : list string) (gctBytes : list byte) : Outcome (list byte) :=
  match lines with
  | [] => Ok gctBytes
  | line :: rest =>
      if String.length line <? 17 then gctLoop rest gctBytes
      else
        a <- str_slice line 0 8 ;;
        b <- str_slice line 9 17 ;;
        match DecodeString (a +++ b) with
        | (_, Some _) => gctLoop rest gctBytes
        | (lineBytes, None) => gctLoop rest (gctBytes ++ lineBytes)
        end
  end.

(** The bytes [writeGctOutput] hands to [ioutil.WriteFile]. *)
Definition gctBytesOf (lines : list string) : Outcome (list byte) :=
  gctBytes <- gctLoop lines gctHeader ;;
  Ok (gctBytes ++ gctFooter).

Definition writeGctOutput (outputFile : string) (w : World) : Outcome unit * World :=
  match gctBytesOf (output w) with
  | Ok gctBytes => (Ok tt, WriteFile outputFile gctBytes w)
  | Panic p => (Panic p, w)
  | Exit c => (Exit c, w)
  end.

Definition writeOutput (outputFile : string) (w : World) : Outcome unit * World :=
  if String.eqb (Ext (GOOS E) outputFile) ".gct"
  then writeGctOutput outputFile w
  else writeTextOutput outputFile w.

Fixpoint writeAll (files : list string) (w : World) : Outcome unit * World :=
  match files with
  | [] => (Ok tt, w)
  | file :: rest =>
      match writeOutput file w with
      | (Ok _, w') => writeAll rest w'
      | failed => failed
      end
  end.

(** ** Entry point (lines 54-96) *)

Definition readConfigFile : Outcome Config :=
  match ReadFile E "codes.json" with
  | None => Panic (LogPanic ("Failed to read config file codes.json" +++ nl) (Some OsError))
  | Some contents =>
      match Unmarshal E (elems contents) with
      | None =>
          Panic (LogPanic
            ("Failed to get json content from config file. Check for syntax error/valid json"
             +++ nl) (Some OsError))
      | Some result => Ok result
      end
  end.

(** The statements of [main] up to the call of [buildBody]: the configuration
    the build runs on. *)
Definition startup : Outcome Config :=
  if length (Args E) <? 2
  then Panic (LogPanic ("Must provide a command. Try typing 'gecko build'" +++ nl) None)
  else if negb (String.eqb (nth 1 (Args E) "") "build")
  then Panic (LogPanic
         ("Currently only the build command is supported. Try typing 'gecko build'" +++ nl)
         None)
  else
    config <- readConfigFile ;;
    if length (OutputFiles config) <? 1
    then Panic (LogPanic
           ("Must have at least one output file configured in the outputFiles field" +++ nl)
           None)
    else Ok config.

Definition mainBody (w : World) : Outcome unit * World :=
  match startup with
  | Ok config =>
      match buildBody (Codes config) w with
      | (Ok _, w') => writeAll (OutputFiles config) w'
      | failed => failed
      end
  | Panic p => (Panic p, w)
  | Exit c => (Exit c, w)
  end.

Definition initialWorld : World := mkWorld [] [].

(** [main]: a panic is caught by the deferred [recover()], after which [main]
    returns and the process ends with status 0; [os.Exit] ends it at once
    with the status given. *)
Definition main : Process :=
  match mainBody initialWorld with
  | (Ok _, w) => mkProcess 0 w
  | (Panic _, w) => mkProcess 0 w
  | (Exit c, w) => mkProcess c w
  end.

End Program.

(** ** A concrete world *)

Lemma slashJoin_nonempty (folder name : string) :
  name <> "" -> folder +++ "/" +++ name <> "".
Proof. intros _. destruct folder; discriminate. Qed.

(** A Linux host whose command line, files, assembler output, folders and
    configuration are given; used to run the program on concrete inputs.
    Paths are joined with a slash; reallocation doubles the capacity; every
    output file can be written; the inputs of the runs below are ASCII, which
    [unicodeUpper] never sees. *)
Definition linuxWorld (args : list string) (files : string -> option GoBytes)
    (tool : list byte -> Toolchain) (dirs : string -> Dir)
    (firstLines : string -> option string) (config : option Config) : Env :=
  mkEnv args "linux"
        (fun oldCap needed => Nat.max needed (2 * oldCap))
        (fun s => s)
        (fun folder name => folder +++ "/" +++ name) slashJoin_nonempty
        files true (fun _ => true) tool dirs firstLines (fun _ => config).

(** A file of the given bytes as [ioutil.ReadFile] returns it: small files
    come in a buffer of 512 bytes. *)
Definition fileBytes (data : list byte) : GoBytes :=
  mkBytes data (repeat x00 (512 - length data)).

(** A world with a source file, [code.asm], that assembles to [code], and a
    binary file, [patch.bin], that holds the same bytes. *)
Definition asmWorld (code : list byte) : Env :=
  linuxWorld ["gecko"; "build"]
    (fun path =>
       if String.eqb path "code.asm" then Some (fileBytes [x6e; x6f; x70])
       else if String.eqb path "patch.bin" then Some (fileBytes code)
       else None)
    (fun _ => AOut (fileBytes code))
    (fun _ => DirError) (fun _ => None) None.

(** The world of [asmWorld] with a readable [codes.json] that holds [config]. *)
Definition buildWorld (args : list string) (code : list byte) (config : Config) : Env :=
  linuxWorld args
    (fun path =>
       if String.eqb path "codes.json" then Some (fileBytes [x7b; x7d])
       else if String.eqb path "code.asm" then Some (fileBytes [x6e; x6f; x70])
       else if String.eqb path "patch.bin" then Some (fileBytes code)
       else None)
    (fun _ => AOut (fileBytes code))
    (fun _ => DirError) (fun _ => None) (Some config).

(** One description with a single Replace entry, written as text and as GCT. *)
Definition nopConfig : Config :=
  mkConfig ["codes.txt"; "codes.gct"]
    [mkCodeDescription "Name" ["Author"] ["Desc"]
       [mkGeckoCode Replace "80001234" "" "nop" false "" "" "60000000"]].

(** One description with a single Inject entry. *)
Definition injectConfig : Config :=
  mkConfig ["codes.txt"]
    [mkCodeDescription "Name" ["Author"] []
       [mkGeckoCode Inject "80001234" "" "" false "code.asm" "" ""]].

(** The world of [buildWorld] where the output file [locked] cannot be
    written (its folder is missing, say). *)
Definition lockedWorld (locked : string) (config : Config) : Env :=
  mkEnv ["gecko"; "build"] "linux"
        (fun oldCap needed => Nat.max needed (2 * oldCap))
        (fun s => s)
        (fun folder name => folder +++ "/" +++ name) slashJoin_nonempty
        (fun path => if String.eqb path "codes.json" then Some (fileBytes [x7b; x7d])
                     else None)
        true (fun path => negb (String.eqb path locked))
        (fun _ => ToolFailed) (fun _ => DirError) (fun _ => None) (fun _ => Some config).

(** The world of [buildWorld] where the assembler fails on every source. *)
Definition failingAsWorld (config : Config) : Env :=
  linuxWorld ["gecko"; "build"]
    (fun path =>
       if String.eqb path "codes.json" then Some (fileBytes [x7b; x7d])
       else if String.eqb path "code.asm" then Some (fileBytes [x6e; x6f; x70])
       else None)
    (fun _ => ToolFailed)
    (fun _ => DirError) (fun _ => None) (Some config).

(** A folder [src] with two assembly files, a text file and a subfolder that
    holds a third assembly file; the assembler answers by the first byte of
    the source. *)
Definition srcFolder : Dir :=
  DirEntries [("a.asm", None); ("notes.txt", None);
              ("sub", Some (DirEntries [("c.asm", None)])); ("b.asm", None)].

Definition folderWorld : Env :=
  linuxWorld ["gecko"; "build"]
    (fun path =>
       if String.eqb path "src/a.asm" then Some (fileBytes [x41])
       else if String.eqb path "src/b.asm" then Some (fileBytes [x42])
       else if String.eqb path "src/sub/c.asm" then Some (fileBytes [x43])
       else None)
    (fun source =>
       match source with
       | x41 :: _ => AOut (fileBytes [x38; x60; x00; x01; x4e; x80; x00; x20])
       | x42 :: _ => AOut (fileBytes [x60; x00; x00; x00])
       | x43 :: _ => AOut (fileBytes [x38; x60; x00; x02; x38; x80; x00; x03;
                                      x4e; x80; x00; x20])
       | _ => ToolFailed
       end)
    (fun folder => if String.eqb folder "src" then srcFolder else DirError)
    (fun path =>
       if String.eqb path "src/a.asm" then Some "# inject at 80001234"
       else if String.eqb path "src/b.asm" then Some "# 80005678"
       else if String.eqb path "src/sub/c.asm" then Some "80009abc"
       else None)
    None.

Definition fiveBytes : list byte := [x01; x02; x03; x04; x05].
Definition twelveBytes : list byte :=
  [x38; x60; x00; x01; x90; x7f; x00; x10; x4e; x80; x00; x20].

(** * Specifications *)

(** ** What an emitted line and a packed block say *)

(** The 24-bit displacement field of a branch line: its last six characters,
    read as a hex number. *)
Definition displacementField (line : string) : Z * option GoError :=
  ParseUint (substring (String.length line - 6) 6 line) 16 32.

(** The [k] low hex digits of [v], least significant first, and the
    rendering of the low 24 bits of [v] as six upper-case hex digits. *)
Fixpoint lowDigits (k : nat) (v : Z) : list Z :=
  match k with
  | O => []
  | S k' => (v mod 16)%Z :: lowDigits k' (v / 16)%Z
  end.

Definition hex6 (v : Z) : string :=
  string_of_list_ascii (map udigit (rev (lowDigits 6 v))).

Definition isHexDigit (c : ascii) : bool := (fromHexChar c <=? 15)%N.

(** Valid hex: hex digits only, an even number of them. *)
Definition validHex (s : string) : bool :=
  str_forallb isHexDigit s && Nat.even (String.length s).

(** A code line of the GCT container: at least 17 characters, of which
    [0,8) and [9,17) are valid hex. *)
Definition isCodeLine (line : string) : bool :=
  (17 <=? String.length line)
  && validHex (substring 0 8 line) && validHex (substring 9 8 line).

(** The 8 bytes such a line stands for. *)
Definition codeLinePayload (line : string) : list byte :=
  fst (DecodeString (substring 0 8 line)) ++ fst (DecodeString (substring 9 8 line)).

(** The first [n] records of 8 bytes of a byte sequence. *)
Fixpoint chunks8 (n : nat) (l : list byte) : list (list byte) :=
  match n with
  | O => []
  | S k => firstn 8 l :: chunks8 k (skipn 8 l)
  end.

(** The line of one record: two words of 4 bytes in upper-case hex. *)
Definition recordLine (E : Env) (r : list byte) : string :=
  upper E (EncodeToString (firstn 4 r)) +++ " " +++ upper E (EncodeToString (skipn 4 r)).

(** One line per whole record of 8 bytes. *)
Definition recordsOf (E : Env) (l : list byte) : list string :=
  map (recordLine E) (chunks8 (length l / 8) l).

(** ** Folders *)

(** Calls in sequence; the first that fails decides. *)
Fixpoint mapM {A B : Type} (f : A -> Outcome B) (l : list A) : Outcome (list B) :=
  match l with
  | [] => Ok []
  | x :: r => y <- f x ;; ys <- mapM f r ;; Ok (y :: ys)
  end.

Definition isAsm (E : Env) (name : string) : bool :=
  String.eqb (Ext (GOOS E) name) ".asm".

(** The names of the entries with the assembly extension, in listing order. *)
Definition asmNames (E : Env) (contents : list (string * option Dir)) : list string :=
  filter (isAsm E) (map fst contents).

(** The entries that are directories, in listing order. *)
Definition subDirs (contents : list (string * option Dir)) : list (string * Dir) :=
  flat_map (fun e => match snd e with Some d => [(fst e, d)] | None => [] end) contents.

(** A first line that ends in an 8-digit hex address. *)
Definition endsInAddress (firstLine : string) : bool :=
  (8 <=? String.length firstLine)
  && validHex (substring (String.length firstLine - 8) 8 firstLine).

(** ** The process *)

(** A call that, when it ends the process, ends it with status 1. *)
Definition exit1 {A : Type} (m : Outcome A) : Prop :=
  match m with
  | Exit c => c = 1%Z
  | _ => True
  end.

(** ** Auxiliary notions *)

(** One more hex digit read, as [ParseUint] accumulates them. *)
Definition parseStep (acc d : Z) : Z := (acc * 16 + d)%Z.

Abbreviation chars := list_ascii_of_string.

(** ** The output sequence and the output files *)

(** The lines one description stands for in the output sequence, given the
    lines of its entries: header, description, entries, a blank line. *)
Definition descriptionBlock (codeAndLines : CodeDescription * list string) : list string :=
  generateHeaderLines (fst codeAndLines) ++ snd codeAndLines ++ [""].

(** The bytes of the code lines of a sequence, in order. *)
Definition payloadOf (lines : list string) : list byte :=
  concat (map codeLinePayload (filter isCodeLine lines)).

(** What an output file holds, by its extension. *)
Definition outputBytes (E : Env) (lines : list string) (outputFile : string) : list byte :=
  if String.eqb (Ext (GOOS E) outputFile) ".gct"
  then gctHeader ++ payloadOf lines ++ gctFooter
  else list_byte_of_string (Join lines nl).

(** ** A Windows host *)

(** What the Gekko assembler leaves in [a.out]: 52 bytes of header, the
    code, then the section names, which start with the marker. *)
Definition gekkoAOut (code : list byte) : list byte :=
  repeat x7f 52 ++ code
  ++ [x00; x2e; x73; x79; x6d; x74; x61; x62; x00; x2e; x74; x65; x78; x74; x00].

Definition windowsWorld (aout : list byte) : Env :=
  mkEnv ["gecko"; "build"] "windows"
        (fun oldCap needed => Nat.max needed (2 * oldCap))
        (fun s => s)
        (fun folder name => folder +++ "/" +++ name) slashJoin_nonempty
        (fun path => if String.eqb path "code.asm" then Some (fileBytes [x6e; x6f; x70])
                     else None)
        true (fun _ => true) (fun _ => AOut (fileBytes aout))
        (fun _ => DirError) (fun _ => None) (fun _ => None).

(** * Properties *)

(** ** Strings as lists of characters *)

Lemma chars_app (a b : string) : chars (a +++ b) = chars a ++ chars b.
Proof. induction a as [|c a IH]; simpl; [reflexivity | now rewrite IH]. Qed.

Lemma chars_length (s : string) : length (chars s) = String.length s.
Proof. induction s as [|c s IH]; simpl; [reflexivity | now rewrite IH]. Qed.

Lemma length_app_str (a b : string) :
  String.length (a +++ b) = String.length a + String.length b.
Proof. now rewrite <- !chars_length, chars_app, length_app. Qed.

Lemma chars_substring (s : string) : forall n m,
  chars (substring n m s) = firstn m (skipn n (chars s)).
Proof.
  induction s as [|c s IH]; intros n m.
  - destruct n, m; reflexivity.
  - destruct n as [|n].
    + destruct m as [|m]; simpl; [reflexivity | now rewrite IH].
    + simpl. apply IH.
Qed.

Lemma chars_inj (a b : string) : chars a = chars b -> a = b.
Proof.
  intros H. rewrite <- (string_of_list_ascii_of_string a), H.
  apply string_of_list_ascii_of_string.
Qed.

(** Equations between concatenations of strings, decided on their characters. *)
Ltac str_equal :=
  apply chars_inj;
  repeat first [rewrite !chars_app | progress cbn [list_ascii_of_string app]];
  rewrite <- ?app_assoc; cbn [app]; try reflexivity.

Lemma length_substring (s : string) (n m : nat) :
  n + m <= String.length s -> String.length (substring n m s) = m.
Proof.
  intros H. rewrite <- chars_length, chars_substring, length_firstn, length_skipn, chars_length.
  lia.
Qed.

Lemma substring_app_r (a b : string) :
  substring (String.length a) (String.length b) (a +++ b) = b.
Proof.
  apply chars_inj.
  rewrite chars_substring, chars_app, <- !chars_length.
  rewrite skipn_app, skipn_all, Nat.sub_diag. simpl. apply firstn_all.
Qed.

Lemma str_from_app (a b : string) : str_from (a +++ b) (String.length a) = Ok b.
Proof.
  unfold str_from, str_slice. rewrite length_app_str.
  replace (String.length a + String.length b - String.length a) with (String.length b) by lia.
  rewrite substring_app_r.
  destruct (Nat.leb_spec (String.length a) (String.length a + String.length b)); [|lia].
  now rewrite Nat.leb_refl.
Qed.

Lemma str_from_ok (s : string) (i : nat) :
  i <= String.length s -> str_from s i = Ok (substring i (String.length s - i) s).
Proof.
  intros H. unfold str_from, str_slice.
  destruct (Nat.leb_spec i (String.length s)); [|lia]. now rewrite Nat.leb_refl.
Qed.

Lemma str_slice_ok (s : string) (i j : nat) :
  i <= j -> j <= String.length s -> str_slice s i j = Ok (substring i (j - i) s).
Proof.
  intros H1 H2. unfold str_slice.
  destruct (Nat.leb_spec i j); [|lia]. destruct (Nat.leb_spec j (String.length s)); [|lia].
  reflexivity.
Qed.

(** ** Byte slices *)

Lemma elems_append (grow : nat -> nat -> nat) (s : GoBytes) (xs : list byte) :
  elems (append grow s xs) = elems s ++ xs.
Proof. unfold append. destruct (_ <=? _); reflexivity. Qed.

Lemma len_append (grow : nat -> nat -> nat) (s : GoBytes) (xs : list byte) :
  len (append grow s xs) = len s + length xs.
Proof. unfold len. now rewrite elems_append, length_app. Qed.

(** A slice expression that stays below [len] sees the elements only. *)
Lemma slice_within (s : GoBytes) (i j : nat) :
  i <= j -> j <= len s ->
  exists sp, slice s i j = Ok (mkBytes (firstn (j - i) (skipn i (elems s))) sp).
Proof.
  intros Hij Hj. unfold slice, cap. unfold len in Hj.
  destruct (Nat.leb_spec i j); [|lia].
  destruct (Nat.leb_spec j (length (elems s) + length (spare s))); [|lia].
  simpl. eexists. do 2 f_equal.
  rewrite skipn_app, firstn_app, length_skipn.
  replace (j - i - (length (elems s) - i)) with 0 by lia.
  now rewrite firstn_O, app_nil_r.
Qed.

Lemma concat_chunks8 (k : nat) : forall l : list byte,
  length l = 8 * k -> concat (chunks8 k l) = l.
Proof.
  induction k as [|k IH]; intros l H.
  - destruct l; [reflexivity | discriminate].
  - cbn [chunks8 concat]. rewrite IH.
    + apply firstn_skipn.
    + rewrite length_skipn. lia.
Qed.

Lemma length_chunks8 (k : nat) (l : list byte) : length (chunks8 k l) = k.
Proof. revert l. induction k as [|k IH]; intros l; simpl; [reflexivity | now rewrite IH]. Qed.

Lemma length_recordsOf (E : Env) (l : list byte) : length (recordsOf E l) = length l / 8.
Proof. unfold recordsOf. now rewrite length_map, length_chunks8. Qed.

(** ** The record loop *)

Section Records.

Variable E : Env.

(** When a whole number [k] of records lies ahead of [i], the loop adds the
    lines of exactly these records, whatever fuel beyond [k] it is given. *)
Lemma recordLines_whole (k : nat) : forall fuel s i lines,
  len s = i + 8 * k -> k <= fuel ->
  recordLines E fuel s i lines
  = Ok (lines ++ map (recordLine E) (chunks8 k (skipn i (elems s)))).
Proof.
  induction k as [|k IH]; intros fuel s i lines Hlen Hfuel.
  - assert (Hle : (len s <=? i) = true) by (apply Nat.leb_le; lia).
    destruct fuel; simpl; rewrite Hle, app_nil_r; reflexivity.
  - destruct fuel as [|fuel]; [lia|].
    assert (Hgt : (len s <=? i) = false) by (apply Nat.leb_gt; lia).
    cbn [recordLines]. rewrite Hgt.
    destruct (slice_within s i (i + 4)) as [sp1 H1]; [lia | lia |].
    destruct (slice_within s (i + 4) (i + 8)) as [sp2 H2]; [lia | lia |].
    rewrite H1, H2. cbn [bind elems].
    rewrite (IH fuel s (i + 8) _ ltac:(lia) ltac:(lia)).
    rewrite <- app_assoc. do 2 f_equal. cbn [chunks8 map app]. f_equal.
    + unfold recordLine.
      replace (i + 4 - i) with 4 by lia. replace (i + 8 - (i + 4)) with 4 by lia.
      rewrite firstn_firstn. change (Nat.min 4 8) with 4.
      rewrite (Nat.add_comm i 4), <- (skipn_skipn 4 i (elems s)).
      rewrite (firstn_skipn_comm 4 4). reflexivity.
    + now rewrite skipn_skipn, (Nat.add_comm 8 i).
Qed.

(** The fuel the encoders give never runs out: more fuel changes nothing. *)
Lemma recordLines_fuel (fuel : nat) : forall more s i lines,
  len s - i <= 8 * fuel ->
  recordLines E (fuel + more) s i lines = recordLines E fuel s i lines.
Proof.
  induction fuel as [|fuel IH]; intros more s i lines Hfuel.
  - assert (Hle : (len s <=? i) = true) by (apply Nat.leb_le; lia).
    destruct more; cbn [Nat.add recordLines]; now rewrite Hle.
  - cbn [Nat.add recordLines]. destruct (len s <=? i) eqn:Hi; [reflexivity|].
    apply Nat.leb_gt in Hi.
    destruct (slice s i (i + 4)); cbn [bind]; [|reflexivity|reflexivity].
    destruct (slice s (i + 4) (i + 8)); cbn [bind]; [|reflexivity|reflexivity].
    apply IH. lia.
Qed.

(** The loop only adds lines. *)
Lemma recordLines_extends (fuel : nat) : forall s i lines result,
  recordLines E fuel s i lines = Ok result -> exists added, result = lines ++ added.
Proof.
  induction fuel as [|fuel IH]; intros s i lines result H; cbn [recordLines] in H.
  - exists []. rewrite app_nil_r. destruct (len s <=? i); congruence.
  - destruct (len s <=? i); [exists []; rewrite app_nil_r; congruence|].
    destruct (slice s i (i + 4)); cbn [bind] in H; try discriminate.
    destruct (slice s (i + 4) (i + 8)); cbn [bind] in H; try discriminate.
    destruct (IH _ _ _ _ H) as [added ->]. rewrite <- app_assoc. eexists. reflexivity.
Qed.

Lemma recordLines_aligned (s : GoBytes) (lines : list string) :
  len s mod 8 = 0 ->
  recordLines E (len s) s 0 lines = Ok (lines ++ recordsOf E (elems s)).
Proof.
  intros H. unfold recordsOf. fold (len s).
  apply (recordLines_whole (len s / 8)).
  - pose proof (Nat.div_mod_eq (len s) 8). lia.
  - apply Nat.Div0.div_le_upper_bound. lia.
Qed.

Lemma len_packInjection (s : GoBytes) :
  len (packInjection E s) = len s + (if len s mod 8 =? 0 then 8 else 4).
Proof.
  unfold packInjection, app_bytes. destruct (len s mod 8 =? 0); now rewrite len_append.
Qed.

Lemma len_packBlock (s : GoBytes) :
  len (packBlock E s) = len s + (if len s mod 8 =? 0 then 0 else 4).
Proof.
  unfold packBlock, app_bytes.
  destruct (len s mod 8 =? 0); simpl; [lia | now rewrite len_append].
Qed.

Lemma packInjection_aligned (s : GoBytes) :
  len s mod 4 = 0 -> len (packInjection E s) mod 8 = 0.
Proof.
  intros H. rewrite len_packInjection.
  destruct (Nat.eqb_spec (len s mod 8) 0) as [H8|H8].
  - rewrite <- Nat.Div0.add_mod_idemp_l, H8. reflexivity.
  - pose proof (Nat.div_mod_eq (len s) 8). pose proof (Nat.div_mod_eq (len s) 4).
    pose proof (Nat.mod_upper_bound (len s) 8 ltac:(lia)).
    assert (len s mod 8 = 4) by lia.
    rewrite <- Nat.Div0.add_mod_idemp_l. replace (len s mod 8) with 4. reflexivity.
Qed.

Lemma packBlock_aligned (s : GoBytes) :
  len s mod 4 = 0 -> len (packBlock E s) mod 8 = 0.
Proof.
  intros H. rewrite len_packBlock.
  destruct (Nat.eqb_spec (len s mod 8) 0) as [H8|H8].
  - now rewrite Nat.add_0_r.
  - pose proof (Nat.div_mod_eq (len s) 8). pose proof (Nat.div_mod_eq (len s) 4).
    pose proof (Nat.mod_upper_bound (len s) 8 ltac:(lia)).
    assert (len s mod 8 = 4) by lia.
    rewrite <- Nat.Div0.add_mod_idemp_l. replace (len s mod 8) with 4. reflexivity.
Qed.

(** Inject never returns without a line. *)
Lemma generateInjectionCodeLines_nonempty (address file : string) (lines : list string) :
  generateInjectionCodeLines E address file = Ok lines -> lines <> [].
Proof.
  unfold generateInjectionCodeLines. intros H.
  destruct (compile E file) as [s| |]; cbn [bind] in H; try discriminate.
  destruct (len s =? 0); [discriminate|]. destruct (len s =? 4).
  - destruct (slice s 0 4); cbn [bind] in H; try discriminate.
    destruct (generateReplaceCodeLine E address _); cbn [bind] in H; try discriminate.
    injection H as <-. discriminate.
  - destruct (str_from address 2); cbn [bind] in H; try discriminate.
    destruct (recordLines_extends _ _ _ _ _ H) as [added ->]. discriminate.
Qed.

End Records.

(** ** Instruction packer *)

Section Packer.

Variable E : Env.

(** C3. Mode A packing: to a compiled sequence whose length is a multiple of
    8 the packer appends exactly the 8 bytes 60 00 00 00 00 00 00 00, to any
    other exactly 4 zero bytes (this holds for every length, so for every
    length above 4); 32 bytes become 40 and 28 bytes become 32. *)
Theorem packInjection_terminator (s : GoBytes) :
  elems (packInjection E s)
  = elems s ++ (if len s mod 8 =? 0
                then [x60; x00; x00; x00; x00; x00; x00; x00]
                else [x00; x00; x00; x00])
  /\ (len s = 32 -> len (packInjection E s) = 40)
  /\ (len s = 28 -> len (packInjection E s) = 32).
Proof.
  split; [|split].
  - unfold packInjection, app_bytes.
    destruct (len s mod 8 =? 0); apply elems_append.
  - intros H. rewrite len_packInjection, H. reflexivity.
  - intros H. rewrite len_packInjection, H. reflexivity.
Qed.

(** C2, amended. For an input that is a whole number of 4-byte words, both
    packing modes give a length divisible by 8, and ReplaceBinary (like
    ReplaceCodeBlock) emits its header followed by one line per 8-byte record
    of the packed bytes, which the records cover exactly. *)
Theorem replaceBinary_word_aligned (address file a : string) (s : GoBytes) :
  ReadFile E file = Some s ->
  str_from address 2 = Ok a ->
  len s mod 4 = 0 ->
  let packed := packBlock E s in
  let lines :=
    ("06" +++ upper E a +++ " " +++ SprintfX 8 (Z.of_nat (len packed)))
    :: recordsOf E (elems packed) in
  len (packInjection E s) mod 8 = 0
  /\ len packed mod 8 = 0
  /\ generateReplaceBinaryLines E address file = Ok lines
  /\ (forall source, compile E source = Ok s ->
        generateReplaceCodeBlockLines E address source = Ok lines)
  /\ concat (chunks8 (len packed / 8) (elems packed)) = elems packed.
Proof.
  intros Hfile Haddr Hwords packed lines.
  pose proof (packBlock_aligned E s Hwords) as Hpacked. fold packed in Hpacked.
  assert (Hblock : blockLines E address s = Ok lines).
  { unfold blockLines. fold packed. rewrite Haddr. cbn [bind].
    now rewrite (recordLines_aligned E packed _ Hpacked). }
  repeat split.
  - now apply packInjection_aligned.
  - exact Hpacked.
  - unfold generateReplaceBinaryLines. now rewrite Hfile.
  - intros source Hsource. unfold generateReplaceCodeBlockLines.
    now rewrite Hsource.
  - apply concat_chunks8. fold (len packed).
    pose proof (Nat.div_mod_eq (len packed) 8). lia.
Qed.

(** C4, amended. The encoder of Inject looks at the compiled length: 0 is the
    fatal error that no code was found in the file; exactly 4 gives the single
    line tagged 04 whose value is the 4 compiled bytes in hex; any other whole
    number of 4-byte words gives the header C2, the truncated address and the
    number of 8-byte records of the packed bytes as 8 hex digits, followed by
    one line per record. *)
Theorem inject_by_compiled_length (address file a : string) (s : GoBytes) :
  compile E file = Ok s ->
  str_from address 2 = Ok a ->
  (len s = 0 ->
     generateInjectionCodeLines E address file
     = Panic (LogPanic ("Did not find any code in file: " +++ file +++ nl) None))
  /\ (len s = 4 ->
        generateInjectionCodeLines E address file
        = Ok ["04" +++ upper E a +++ " " +++ upper E (EncodeToString (elems s))])
  /\ (len s <> 0 -> len s <> 4 -> len s mod 4 = 0 ->
        let packed := elems (packInjection E s) in
        generateInjectionCodeLines E address file
        = Ok (("C2" +++ upper E a +++ " " +++ SprintfX 8 (Z.of_nat (length packed / 8)))
              :: recordsOf E packed)
        /\ length (recordsOf E packed) = length packed / 8
        /\ concat (chunks8 (length packed / 8) packed) = packed).
Proof.
  intros Hcompile Haddr. unfold generateInjectionCodeLines. rewrite Hcompile. cbn [bind].
  split; [|split].
  - intros H0. now rewrite H0.
  - intros H4. rewrite H4. cbn [Nat.eqb].
    destruct (slice_within s 0 4) as [sp Hs]; [lia | lia |].
    rewrite Hs. cbn [bind elems]. unfold generateReplaceCodeLine. rewrite Haddr. cbn [bind].
    replace (firstn (4 - 0) (skipn 0 (elems s))) with (elems s); [reflexivity|].
    cbn [Nat.sub skipn]. symmetry. apply firstn_all2. unfold len in H4. lia.
  - intros H0 H4 Hwords.
    destruct (Nat.eqb_spec (len s) 0) as [|_]; [contradiction|].
    destruct (Nat.eqb_spec (len s) 4) as [|_]; [contradiction|].
    rewrite Haddr. cbn [bind].
    pose proof (packInjection_aligned E s Hwords) as Hpacked.
    rewrite (recordLines_aligned E _ _ Hpacked).
    repeat split.
    + apply length_recordsOf.
    + apply concat_chunks8. fold (len (packInjection E s)).
      pose proof (Nat.div_mod_eq (len (packInjection E s)) 8). lia.
Qed.

End Packer.

(** *** The packer on concrete files *)

Lemma replaceBinary_word_aligned_witness :
  ReadFile (asmWorld twelveBytes) "patch.bin" = Some (fileBytes twelveBytes)
  /\ str_from "80001234" 2 = Ok "001234"
  /\ len (fileBytes twelveBytes) mod 4 = 0
  /\ generateReplaceBinaryLines (asmWorld twelveBytes) "80001234" "patch.bin"
     = Ok ["06001234 00000010"; "38600001 907F0010"; "4E800020 60000000"].
Proof.
  repeat (split; [reflexivity|]).
  destruct (replaceBinary_word_aligned (asmWorld twelveBytes) "80001234" "patch.bin"
              "001234" (fileBytes twelveBytes) eq_refl eq_refl eq_refl)
    as (_ & _ & H & _).
  rewrite H. reflexivity.
Defined.

(** A binary file of 5 bytes: the packed length is 9, which 8 does not
    divide; the second line is made of one packed byte and of cells of the
    buffer beyond the slice. *)
Lemma replaceBinary_five_bytes :
  ReadFile (asmWorld fiveBytes) "patch.bin" = Some (fileBytes fiveBytes)
  /\ len (packBlock (asmWorld fiveBytes) (fileBytes fiveBytes)) = 9
  /\ len (packBlock (asmWorld fiveBytes) (fileBytes fiveBytes)) mod 8 <> 0
  /\ generateReplaceBinaryLines (asmWorld fiveBytes) "80001234" "patch.bin"
     = Ok ["06001234 00000009"; "01020304 05600000"; "00000000 00000000"].
Proof. repeat split. discriminate. Qed.

Lemma inject_by_compiled_length_witness :
  compile (asmWorld twelveBytes) "code.asm" = Ok (fileBytes twelveBytes)
  /\ str_from "80001234" 2 = Ok "001234"
  /\ len (fileBytes twelveBytes) <> 0
  /\ len (fileBytes twelveBytes) <> 4
  /\ len (fileBytes twelveBytes) mod 4 = 0
  /\ generateInjectionCodeLines (asmWorld twelveBytes) "80001234" "code.asm"
     = Ok ["C2001234 00000002"; "38600001 907F0010"; "4E800020 00000000"].
Proof.
  split; [reflexivity|]. split; [reflexivity|].
  split; [discriminate|]. split; [discriminate|]. split; [reflexivity|].
  destruct (inject_by_compiled_length (asmWorld twelveBytes) "80001234" "code.asm"
              "001234" (fileBytes twelveBytes) eq_refl eq_refl)
    as (_ & _ & H).
  destruct H as (H & _); [discriminate | discriminate | reflexivity |].
  rewrite H. reflexivity.
Defined.

(** A compiled sequence of 5 bytes: the header counts one record (the packed
    9 bytes hold one whole record), yet two record lines follow. *)
Lemma inject_five_bytes :
  compile (asmWorld fiveBytes) "code.asm" = Ok (fileBytes fiveBytes)
  /\ len (packInjection (asmWorld fiveBytes) (fileBytes fiveBytes)) / 8 = 1
  /\ recordsOf (asmWorld fiveBytes)
       (elems (packInjection (asmWorld fiveBytes) (fileBytes fiveBytes)))
     = ["01020304 05000000"]
  /\ generateInjectionCodeLines (asmWorld fiveBytes) "80001234" "code.asm"
     = Ok ["C2001234 00000001"; "01020304 05000000"; "00000000 00000000"].
Proof. repeat split. Qed.

(** ** Hex formatting and parsing of numbers *)

Lemma wrap64_range (z : Z) : (0 <= wrap64 z < 2 ^ 64)%Z.
Proof. unfold wrap64. apply Z.mod_pos_bound. reflexivity. Qed.

Lemma wrap64_small (z : Z) : (0 <= z < 2 ^ 64)%Z -> wrap64 z = z.
Proof. intros H. unfold wrap64. now apply Z.mod_small. Qed.

Lemma lowDigits_zero (k : nat) : lowDigits k 0 = repeat 0%Z k.
Proof.
  induction k as [|k IH]; [reflexivity|].
  change (lowDigits (S k) 0) with (0%Z :: lowDigits k 0). now rewrite IH.
Qed.

Lemma length_lowDigits (k : nat) (v : Z) : length (lowDigits k v) = k.
Proof. revert v. induction k as [|k IH]; intros v; simpl; [reflexivity | now rewrite IH]. Qed.

Lemma lowDigits_bounded (k : nat) : forall v,
  Forall (fun d => 0 <= d < 16)%Z (lowDigits k v).
Proof.
  induction k as [|k IH]; intros v; simpl; constructor.
  - apply Z.mod_pos_bound. reflexivity.
  - apply IH.
Qed.

(** The digits [fmt] prints, padded to [k], start with the [k] low digits. *)
Lemma hexDigitsLE_low (k : nat) : forall fuel v,
  k <= fuel ->
  firstn k (hexDigitsLE fuel v ++ repeat 0%Z (k - length (hexDigitsLE fuel v)))
  = lowDigits k v.
Proof.
  induction k as [|k IH]; intros fuel v Hk; [reflexivity|].
  destruct fuel as [|fuel]; [lia|].
  cbn [hexDigitsLE lowDigits length Nat.sub app firstn]. f_equal.
  destruct (Z.eqb_spec (v / 16) 0) as [H0|H0].
  - rewrite H0, lowDigits_zero. cbn [length app]. rewrite Nat.sub_0_r.
    apply firstn_all2. now rewrite repeat_length.
  - apply IH. lia.
Qed.

Lemma SprintfX_last6 (v : Z) :
  str_from (SprintfX 6 v) (String.length (SprintfX 6 v) - 6) = Ok (hex6 v).
Proof.
  rewrite str_from_ok by lia. f_equal. apply chars_inj.
  unfold SprintfX, hex6.
  set (ds := hexDigitsLE 16 v). set (L := ds ++ repeat 0%Z (6 - length ds)).
  assert (HL : 6 <= length L).
  { unfold L. rewrite length_app, repeat_length. lia. }
  rewrite chars_substring, <- chars_length, !list_ascii_of_string_of_list_ascii.
  rewrite length_map, length_rev.
  replace (length L - (length L - 6)) with 6 by lia.
  rewrite skipn_map, firstn_map, skipn_rev.
  replace (length L - (length L - 6)) with 6 by lia.
  rewrite firstn_all2 by (rewrite length_rev, length_firstn; lia).
  unfold L, ds. now rewrite (hexDigitsLE_low 6 16 v) by lia.
Qed.

Lemma digitVal_udigit (d : Z) : (0 <= d < 16)%Z -> digitVal (udigit d) = Some d.
Proof.
  intros H.
  assert (Hd : (d = 0 \/ d = 1 \/ d = 2 \/ d = 3 \/ d = 4 \/ d = 5 \/ d = 6 \/ d = 7 \/
                d = 8 \/ d = 9 \/ d = 10 \/ d = 11 \/ d = 12 \/ d = 13 \/ d = 14 \/ d = 15)%Z)
    by lia.
  repeat (destruct Hd as [Hd|Hd]; [subst d; reflexivity|]). subst d. reflexivity.
Qed.

Lemma parseStep_grows (ds : list Z) : forall n,
  Forall (fun d => 0 <= d < 16)%Z ds -> (0 <= n)%Z -> (n <= fold_left parseStep ds n)%Z.
Proof.
  induction ds as [|d ds IH]; intros n Hds Hn; simpl; [lia|].
  inversion Hds as [|? ? Hd Hds']; subst.
  unfold parseStep at 2. specialize (IH (n * 16 + d)%Z Hds' ltac:(lia)). lia.
Qed.

(** [ParseUint]'s loop on digits that stay within 32 bits. *)
Lemma parseDigits_digits (ds : list Z) : forall n,
  Forall (fun d => 0 <= d < 16)%Z ds -> (0 <= n)%Z ->
  (fold_left parseStep ds n <= 2 ^ 32 - 1)%Z ->
  parseDigits (string_of_list_ascii (map udigit ds)) n 16 (maxUint64 / 16 + 1) (2 ^ 32 - 1)
  = (fold_left parseStep ds n, None).
Proof.
  induction ds as [|d ds IH]; intros n Hds Hn Hmax; [reflexivity|].
  inversion Hds as [|? ? Hd Hds']; subst.
  cbn [map string_of_list_ascii parseDigits fold_left].
  rewrite (digitVal_udigit d Hd).
  cbn [fold_left] in Hmax.
  pose proof (parseStep_grows ds (parseStep n d) Hds') as Hgrow.
  change (parseStep n d) with (n * 16 + d)%Z in *.
  assert (Hn1 : (n * 16 + d <= 4294967295)%Z)
    by (change (2 ^ 32 - 1)%Z with 4294967295%Z in Hmax; lia).
  destruct (Z.leb_spec 16 d); [lia|].
  change (maxUint64 / 16 + 1)%Z with 1152921504606846976%Z.
  destruct (Z.leb_spec 1152921504606846976 n); [lia|].
  rewrite (wrap64_small (n * 16)) by (change (2 ^ 64)%Z with 18446744073709551616%Z; lia).
  rewrite (wrap64_small (n * 16 + d)) by (change (2 ^ 64)%Z with 18446744073709551616%Z; lia).
  destruct (Z.ltb_spec (n * 16 + d) (n * 16)); [lia|].
  destruct (Z.ltb_spec (2 ^ 32 - 1) (n * 16 + d));
    [change (2 ^ 32 - 1)%Z with 4294967295%Z in *; lia|].
  cbn [orb]. apply IH; [assumption | lia | exact Hmax].
Qed.

Lemma lowDigits_value (k : nat) : forall v,
  (0 <= v)%Z ->
  fold_right (fun d acc => parseStep acc d) 0%Z (lowDigits k v) = (v mod 16 ^ Z.of_nat k)%Z.
Proof.
  induction k as [|k IH]; intros v Hv.
  - simpl. now rewrite Z.mod_1_r.
  - cbn [lowDigits fold_right]. rewrite IH by (apply Z.div_pos; lia).
    unfold parseStep. rewrite Nat2Z.inj_succ, Z.pow_succ_r by lia.
    rewrite Z.rem_mul_r by lia. lia.
Qed.

(** Reading the six digits back gives the low 24 bits. *)
Lemma ParseUint_hex6 (v : Z) :
  (0 <= v)%Z -> ParseUint (hex6 v) 16 32 = ((v mod 2 ^ 24)%Z, None).
Proof.
  intros Hv.
  assert (Hval : fold_left parseStep (rev (lowDigits 6 v)) 0%Z = (v mod 2 ^ 24)%Z).
  { change (2 ^ 24)%Z with (16 ^ Z.of_nat 6)%Z.
    rewrite <- (lowDigits_value 6 v Hv), <- fold_left_rev_right, rev_involutive.
    reflexivity. }
  transitivity (parseDigits (hex6 v) 0 16 (maxUint64 / 16 + 1) (2 ^ 32 - 1)).
  - unfold hex6. cbn [lowDigits rev app map string_of_list_ascii]. reflexivity.
  - unfold hex6. rewrite parseDigits_digits.
    + now rewrite Hval.
    + apply Forall_rev, lowDigits_bounded.
    + lia.
    + rewrite Hval. pose proof (Z.mod_pos_bound v (2 ^ 24) ltac:(reflexivity)).
      change (2 ^ 24)%Z with 16777216%Z in *. change (2 ^ 32 - 1)%Z with 4294967295%Z. lia.
Qed.

Lemma length_hex6 (v : Z) : String.length (hex6 v) = 6.
Proof.
  unfold hex6. rewrite <- chars_length, list_ascii_of_string_of_list_ascii.
  now rewrite length_map, length_rev, length_lowDigits.
Qed.

Lemma parseDigits_error (cs : string) : forall n base cutoff maxVal v e,
  parseDigits cs n base cutoff maxVal = (v, Some e) ->
  (e = ErrSyntax /\ v = 0%Z) \/ (e = ErrRange /\ v = maxVal).
Proof.
  induction cs as [|c cs IH]; intros n base cutoff maxVal v e H; simpl in H.
  - discriminate.
  - destruct (digitVal c) as [d|]; [|inversion H; auto].
    destruct (base <=? d)%Z; [inversion H; auto|].
    destruct (cutoff <=? n)%Z; [inversion H; auto|].
    destruct (_ || _); [inversion H; auto|].
    eapply IH; eassumption.
Qed.

(** A failed [ParseUint] returns 0 with a syntax error and the largest value
    with a range error. *)
Lemma ParseUint_error (s : string) (bitSize v : Z) (e : GoError) :
  ParseUint s 16 bitSize = (v, Some e) ->
  (e = ErrSyntax /\ v = 0%Z) \/ (e = ErrRange /\ v = (2 ^ bitSize - 1)%Z).
Proof.
  unfold ParseUint. destruct s as [|c s].
  - intros H; inversion H; auto.
  - apply parseDigits_error.
Qed.

(** ** Branch lines *)

Section Branches.

Variable E : Env.

Lemma line_field_split (a f : string) :
  "04" +++ a +++ " " +++ "48" +++ f = ("04" +++ a +++ " 48") +++ f.
Proof. str_equal. Qed.

Lemma line_prefix_split (a f : string) :
  "04" +++ a +++ " " +++ "48" +++ f = ("04" +++ a +++ " ") +++ "48" +++ f.
Proof. str_equal. Qed.

Lemma line_prefix (p f : string) :
  String.length f = 6 ->
  substring (String.length (p +++ "48" +++ f) - 8) 2 (p +++ "48" +++ f) = "48".
Proof.
  intros Hf. apply chars_inj.
  rewrite chars_substring, length_app_str. cbn [String.append String.length]. rewrite Hf.
  rewrite Nat.add_sub, <- chars_length, chars_app, skipn_app, skipn_all, Nat.sub_diag.
  reflexivity.
Qed.

(** The sign test never succeeds: the prefix is always 48. *)
Lemma branchLine_ok (address a : string) (addressUint targetAddressUint : Z)
    (shouldLink : bool) :
  str_from address 2 = Ok a ->
  branchLine E address addressUint targetAddressUint shouldLink
  = Ok ("04" +++ upper E a +++ " " +++ "48" +++
        hex6 (if shouldLink
              then wrap64 (wrap64 (targetAddressUint - addressUint) + 1)
              else wrap64 (targetAddressUint - addressUint))).
Proof.
  intros Ha. unfold branchLine.
  pose proof (wrap64_range (targetAddressUint - addressUint)) as Hd.
  destruct (Z.ltb_spec (wrap64 (targetAddressUint - addressUint)) 0); [lia|].
  rewrite SprintfX_last6. cbn [bind]. rewrite Ha. reflexivity.
Qed.

Lemma displacementField_line (a : string) (v : Z) :
  (0 <= v)%Z ->
  displacementField ("04" +++ a +++ " " +++ "48" +++ hex6 v) = ((v mod 2 ^ 24)%Z, None).
Proof.
  intros Hv. unfold displacementField. rewrite line_field_split.
  rewrite length_app_str, length_hex6, Nat.add_sub.
  rewrite <- (length_hex6 v) at 1. rewrite substring_app_r.
  now apply ParseUint_hex6.
Qed.

(** What [generateBranchCodeLine] needs to return a line. *)
Lemma generateBranchCodeLine_ok (address targetAddress line : string) (shouldLink : bool) :
  generateBranchCodeLine E address targetAddress shouldLink = Ok line ->
  exists a t addressUint err targetAddressUint,
    str_from address 2 = Ok a /\ ParseUint a 16 32 = (addressUint, err)
    /\ str_from targetAddress 2 = Ok t /\ ParseUint t 16 32 = (targetAddressUint, None).
Proof.
  unfold generateBranchCodeLine. intros H.
  destruct (str_from address 2) as [a| |]; try discriminate. cbn [bind] in H.
  destruct (ParseUint a 16 32) as [au e1] eqn:Hpa.
  destruct (str_from targetAddress 2) as [t| |]; try discriminate. cbn [bind] in H.
  destruct (ParseUint t 16 32) as [tu [e2|]] eqn:Hpt; try discriminate.
  now exists a, t, au, e1, tu.
Qed.

Lemma generateBranchCodeLine_parsed (address targetAddress a t : string)
    (addressUint targetAddressUint : Z) (err : option GoError) (shouldLink : bool) :
  str_from address 2 = Ok a -> ParseUint a 16 32 = (addressUint, err) ->
  str_from targetAddress 2 = Ok t -> ParseUint t 16 32 = (targetAddressUint, None) ->
  generateBranchCodeLine E address targetAddress shouldLink
  = branchLine E address addressUint targetAddressUint shouldLink.
Proof.
  intros Ha Hpa Ht Hpt. unfold generateBranchCodeLine.
  rewrite Ha. cbn [bind]. rewrite Hpa, Ht. cbn [bind]. now rewrite Hpt.
Qed.

(** C1 (the code departs from it). The prefix of every branch line is 48,
    also when the target lies below the base: for base 80000010 and target
    80000000 the line is 04000010 48FFFFF0, where the claim has 4B. When
    target and base are the same address, the line of Branch ends in
    48000000, as the claim has it. *)
Theorem branch_backward_prefix :
  generateBranchCodeLine E "80000010" "80000000" false = Ok "04000010 48FFFFF0"
  /\ (forall address a v,
        str_from address 2 = Ok a -> ParseUint a 16 32 = (v, None) ->
        generateBranchCodeLine E address address false
        = Ok ("04" +++ upper E a +++ " " +++ "48" +++ "000000"))
  /\ forall address targetAddress shouldLink line,
       generateBranchCodeLine E address targetAddress shouldLink = Ok line ->
       substring (String.length line - 8) 2 line = "48".
Proof.
  split; [reflexivity|]. split.
  { intros address a v Ha Hpa.
    rewrite (generateBranchCodeLine_parsed _ _ _ _ _ _ _ _ Ha Hpa Ha Hpa).
    rewrite (branchLine_ok _ _ _ _ _ Ha), Z.sub_diag. reflexivity. }
  intros address targetAddress shouldLink line H.
  destruct (generateBranchCodeLine_ok _ _ _ _ H) as (a & t & au & e & tu & Ha & Hpa & Ht & Hpt).
  rewrite (generateBranchCodeLine_parsed _ _ _ _ _ _ _ _ Ha Hpa Ht Hpt) in H.
  rewrite (branchLine_ok _ _ _ _ _ Ha) in H.
  set (v := if shouldLink then _ else _) in H.
  assert (Hline : line = "04" +++ upper E a +++ " " +++ "48" +++ hex6 v) by congruence.
  rewrite Hline, line_prefix_split. apply line_prefix. apply length_hex6.
Qed.

(** C5, amended. When Branch emits a line for an address pair, BranchAndLink
    emits one too, and its 24-bit displacement field is the field of Branch
    plus 1 modulo [2^24]. *)
Theorem branchLink_field (address targetAddress lineB : string) :
  generateBranchCodeLine E address targetAddress false = Ok lineB ->
  exists lineL field,
    generateBranchCodeLine E address targetAddress true = Ok lineL
    /\ displacementField lineB = (field, None)
    /\ displacementField lineL = (((field + 1) mod 2 ^ 24)%Z, None).
Proof.
  intros H.
  destruct (generateBranchCodeLine_ok _ _ _ _ H) as (a & t & au & e & tu & Ha & Hpa & Ht & Hpt).
  rewrite (generateBranchCodeLine_parsed _ _ _ _ _ _ _ _ Ha Hpa Ht Hpt) in H.
  rewrite (branchLine_ok _ _ _ _ _ Ha) in H.
  assert (HlineB : lineB = "04" +++ upper E a +++ " " +++ "48" +++ hex6 (wrap64 (tu - au)))
    by congruence.
  rewrite HlineB. clear H HlineB.
  pose proof (wrap64_range (tu - au)) as Hd.
  pose proof (wrap64_range (wrap64 (tu - au) + 1)) as Hd1.
  eexists. exists (wrap64 (tu - au) mod 2 ^ 24)%Z. split; [|split].
  - rewrite (generateBranchCodeLine_parsed _ _ _ _ _ _ _ _ Ha Hpa Ht Hpt).
    apply (branchLine_ok _ _ _ _ _ Ha).
  - apply displacementField_line. lia.
  - rewrite displacementField_line by lia. f_equal.
    unfold wrap64 at 1. rewrite Z.mod_mod_divide.
    + now rewrite Z.add_mod_idemp_l.
    + exists (2 ^ 40)%Z. reflexivity.
Qed.

(** C9, amended. When the base address fails to parse and the target address
    parses, no error is raised: the line is the one of the value that
    [ParseUint] returned with the error, 0 after a syntax error and
    [2^32 - 1] after a range error. *)
Theorem branch_base_error_ignored (address targetAddress a t : string)
    (v targetAddressUint : Z) (e : GoError) (shouldLink : bool) :
  str_from address 2 = Ok a ->
  ParseUint a 16 32 = (v, Some e) ->
  str_from targetAddress 2 = Ok t ->
  ParseUint t 16 32 = (targetAddressUint, None) ->
  generateBranchCodeLine E address targetAddress shouldLink
  = branchLine E address v targetAddressUint shouldLink
  /\ isOk (generateBranchCodeLine E address targetAddress shouldLink) = true
  /\ ((e = ErrSyntax /\ v = 0%Z) \/ (e = ErrRange /\ v = (2 ^ 32 - 1)%Z)).
Proof.
  intros Ha Hpa Ht Hpt.
  rewrite (generateBranchCodeLine_parsed _ _ _ _ _ _ _ _ Ha Hpa Ht Hpt).
  split; [reflexivity|]. split.
  - now rewrite (branchLine_ok _ _ _ _ _ Ha).
  - exact (ParseUint_error _ _ _ _ Hpa).
Qed.

End Branches.

(** *** Branch lines on concrete addresses *)

Lemma branchLink_field_witness :
  generateBranchCodeLine (asmWorld []) "80000010" "80000020" false = Ok "04000010 48000010"
  /\ exists lineL field,
       generateBranchCodeLine (asmWorld []) "80000010" "80000020" true = Ok lineL
       /\ displacementField "04000010 48000010" = (field, None)
       /\ displacementField lineL = (((field + 1) mod 2 ^ 24)%Z, None).
Proof.
  split; [reflexivity|].
  exact (branchLink_field (asmWorld []) "80000010" "80000020" "04000010 48000010" eq_refl).
Defined.

(** Base 80000001, target 80000000: the field of Branch is FFFFFF, the field of
    BranchAndLink is 000000, which is not FFFFFF plus 1. *)
Lemma branchLink_field_wraps :
  generateBranchCodeLine (asmWorld []) "80000001" "80000000" false = Ok "04000001 48FFFFFF"
  /\ displacementField "04000001 48FFFFFF" = (16777215%Z, None)
  /\ generateBranchCodeLine (asmWorld []) "80000001" "80000000" true = Ok "04000001 48000000"
  /\ displacementField "04000001 48000000" = (0%Z, None)
  /\ (0 <> 16777215 + 1)%Z.
Proof. repeat split. discriminate. Qed.

Lemma branch_base_error_ignored_witness :
  str_from "80zz" 2 = Ok "zz"
  /\ ParseUint "zz" 16 32 = (0%Z, Some ErrSyntax)
  /\ str_from "80000000" 2 = Ok "000000"
  /\ ParseUint "000000" 16 32 = (0%Z, None)
  /\ generateBranchCodeLine (asmWorld []) "80zz" "80000000" false = Ok "04ZZ 48000000".
Proof.
  repeat (split; [reflexivity|]).
  destruct (branch_base_error_ignored (asmWorld []) "80zz" "80000000" "zz" "000000"
              0%Z 0%Z ErrSyntax false eq_refl eq_refl eq_refl eq_refl) as (H & _).
  rewrite H. reflexivity.
Defined.

(** A base address of nine hex digits is out of range: [ParseUint] returns
    [2^32 - 1] with the error, and the line differs from the line of base 0. *)
Lemma branch_base_out_of_range :
  str_from "80FFFFFFFFF" 2 = Ok "FFFFFFFFF"
  /\ ParseUint "FFFFFFFFF" 16 32 = (4294967295%Z, Some ErrRange)
  /\ str_from "80000000" 2 = Ok "000000"
  /\ ParseUint "000000" 16 32 = (0%Z, None)
  /\ generateBranchCodeLine (asmWorld []) "80FFFFFFFFF" "80000000" false
     = Ok "04FFFFFFFFF 48000001"
  /\ branchLine (asmWorld []) "80FFFFFFFFF" 0 0 false = Ok "04FFFFFFFFF 48000000".
Proof. repeat split. Qed.

(** ** Hex decoding *)

(** Induction on strings, two characters at a time. *)
Lemma string_pair_ind (P : string -> Prop) :
  P EmptyString ->
  (forall c, P (String c EmptyString)) ->
  (forall c d r, P r -> P (String c (String d r))) ->
  forall s, P s.
Proof.
  intros H0 H1 H2.
  assert (H : forall s, P s /\ forall c, P (String c s)).
  { induction s as [|d s [IHs IHc]]; split; auto. }
  intros s. apply H.
Qed.

Lemma DecodeString_app (a b : string) :
  Nat.even (String.length a) = true ->
  DecodeString (a +++ b)
  = match DecodeString a with
    | (x, None) => let '(y, e) := DecodeString b in (x ++ y, e)
    | (x, Some e) => (x, Some e)
    end.
Proof.
  induction a as [|c|c d r IH] using string_pair_ind; intros Heven.
  - cbn [String.append DecodeString app]. now destruct (DecodeString b).
  - discriminate.
  - cbn [String.append DecodeString].
    destruct (15 <? fromHexChar c)%N; [reflexivity|].
    destruct (15 <? fromHexChar d)%N; [reflexivity|].
    rewrite (IH Heven).
    destruct (DecodeString r) as [x [e|]]; [reflexivity|].
    now destruct (DecodeString b).
Qed.

(** [DecodeString] succeeds on valid hex, and only there; it then gives one
    byte for two characters. *)
Lemma DecodeString_valid (s : string) :
  if validHex s
  then snd (DecodeString s) = None
       /\ length (fst (DecodeString s)) = String.length s / 2
  else snd (DecodeString s) <> None.
Proof.
  unfold validHex. induction s as [|c|c d r IH] using string_pair_ind.
  - split; reflexivity.
  - cbn [str_forallb String.length Nat.even]. rewrite andb_false_r.
    cbn [DecodeString]. destruct (15 <? fromHexChar c)%N; discriminate.
  - cbn [str_forallb String.length Nat.even DecodeString]. unfold isHexDigit at 1 2.
    destruct (N.ltb_spec 15 (fromHexChar c)) as [Hc|Hc].
    + replace (fromHexChar c <=? 15)%N with false by (symmetry; apply N.leb_gt; lia).
      discriminate.
    + replace (fromHexChar c <=? 15)%N with true by (symmetry; apply N.leb_le; lia).
      destruct (N.ltb_spec 15 (fromHexChar d)) as [Hd|Hd].
      * replace (fromHexChar d <=? 15)%N with false by (symmetry; apply N.leb_gt; lia).
        discriminate.
      * replace (fromHexChar d <=? 15)%N with true by (symmetry; apply N.leb_le; lia).
        cbn [andb]. destruct (DecodeString r) as [x e]. cbn [fst snd] in *.
        destruct (str_forallb isHexDigit r && Nat.even (String.length r)).
        -- destruct IH as [He Hl]. split; [exact He|].
           cbn [length]. rewrite Hl.
           change (S (S (String.length r))) with (1 * 2 + String.length r).
           now rewrite Nat.div_add_l by discriminate.
        -- exact IH.
Qed.

(** ** GCT serializer *)

Lemma length_codeLinePayload (line : string) :
  isCodeLine line = true -> length (codeLinePayload line) = 8.
Proof.
  unfold isCodeLine, codeLinePayload. intros H.
  apply andb_prop in H as [H Hb]. apply andb_prop in H as [Hlen Ha].
  apply Nat.leb_le in Hlen.
  pose proof (DecodeString_valid (substring 0 8 line)) as Va. rewrite Ha in Va.
  pose proof (DecodeString_valid (substring 9 8 line)) as Vb. rewrite Hb in Vb.
  rewrite length_app, (proj2 Va), (proj2 Vb), !length_substring by lia. reflexivity.
Qed.

(** The loop adds the payload of the code lines, in order, and nothing else. *)
Lemma gctLoop_spec (lines : list string) : forall gctBytes,
  gctLoop lines gctBytes
  = Ok (gctBytes ++ concat (map codeLinePayload (filter isCodeLine lines))).
Proof.
  induction lines as [|line rest IH]; intros gctBytes.
  - cbn. now rewrite app_nil_r.
  - cbn [gctLoop filter]. unfold isCodeLine at 1.
    destruct (Nat.ltb_spec (String.length line) 17) as [Hshort|Hlong].
    + replace (17 <=? String.length line) with false by (symmetry; apply Nat.leb_gt; lia).
      apply IH.
    + replace (17 <=? String.length line) with true by (symmetry; apply Nat.leb_le; lia).
      rewrite !str_slice_ok by lia. cbn [bind andb Nat.sub].
      rewrite DecodeString_app by (now rewrite length_substring by lia).
      pose proof (DecodeString_valid (substring 0 8 line)) as Va.
      pose proof (DecodeString_valid (substring 9 8 line)) as Vb.
      destruct (DecodeString (substring 0 8 line)) as [x ea] eqn:Da.
      destruct (DecodeString (substring 9 8 line)) as [y eb] eqn:Db.
      cbn [fst snd] in Va, Vb.
      destruct (validHex (substring 0 8 line)).
      * destruct Va as [-> _]. destruct (validHex (substring 9 8 line)).
        -- destruct Vb as [-> _]. cbn [andb map concat].
           rewrite IH, <- app_assoc. unfold codeLinePayload. now rewrite Da, Db.
        -- destruct eb; [apply IH | contradiction].
      * destruct ea; [apply IH | contradiction].
Qed.

Lemma length_payloads (lines : list string) :
  length (concat (map codeLinePayload (filter isCodeLine lines)))
  = 8 * length (filter isCodeLine lines).
Proof.
  induction lines as [|line rest IH]; [reflexivity|].
  cbn [filter]. destruct (isCodeLine line) eqn:Hline; [|exact IH].
  cbn [map concat length]. rewrite length_app, IH, (length_codeLinePayload _ Hline). lia.
Qed.

(** C6. The GCT bytes are the header 00 D0 C0 DE 00 D0 C0 DE, then, for the
    lines in order, the 8 bytes decoded from characters [0,8) and [9,17) of
    each line that has at least 17 characters and valid hex in both places,
    and nothing for any other line (blank lines, [$] headers and [*]
    comments are among these), then the footer F0 00 00 00 00 00 00 00. *)
Theorem gctBytesOf_layout (lines : list string) :
  gctBytesOf lines
  = Ok ([x00; xd0; xc0; xde; x00; xd0; xc0; xde]
        ++ concat (map codeLinePayload (filter isCodeLine lines))
        ++ [xf0; x00; x00; x00; x00; x00; x00; x00])
  /\ (forall line, isCodeLine line = true -> length (codeLinePayload line) = 8)
  /\ isCodeLine "" = false
  /\ (forall rest, isCodeLine (String "$" rest) = false)
  /\ (forall rest, isCodeLine (String "*" rest) = false).
Proof.
  split; [|split; [|split; [|split]]].
  - unfold gctBytesOf. rewrite gctLoop_spec. cbn [bind].
    unfold gctHeader, gctFooter. now rewrite <- app_assoc.
  - exact length_codeLinePayload.
  - reflexivity.
  - intros rest. unfold isCodeLine. destruct (17 <=? _); reflexivity.
  - intros rest. unfold isCodeLine. destruct (17 <=? _); reflexivity.
Qed.

(** C10. The GCT bytes are 16 plus 8 times the number of code lines long:
    a multiple of 8 and at least 16, with or without code lines. *)
Theorem gctBytesOf_length (lines : list string) :
  exists gctBytes,
    gctBytesOf lines = Ok gctBytes
    /\ length gctBytes = 16 + 8 * length (filter isCodeLine lines)
    /\ length gctBytes mod 8 = 0
    /\ 16 <= length gctBytes.
Proof.
  eexists. split.
  - unfold gctBytesOf. rewrite gctLoop_spec. cbn [bind]. reflexivity.
  - rewrite !length_app, length_payloads. cbn [gctHeader gctFooter length].
    repeat split; [lia | | lia].
    replace (8 + 8 * length (filter isCodeLine lines) + 8)
      with ((2 + length (filter isCodeLine lines)) * 8) by lia.
    apply Nat.Div0.mod_mul.
Qed.

(** ** Folders *)

Lemma mapM_app {A B : Type} (f : A -> Outcome B) (l1 l2 : list A) :
  mapM f (l1 ++ l2) = (a <- mapM f l1 ;; b <- mapM f l2 ;; Ok (a ++ b)).
Proof.
  induction l1 as [|x l1 IH]; cbn [app mapM bind].
  - now destruct (mapM f l2).
  - destruct (f x); cbn [bind]; [|reflexivity|reflexivity].
    rewrite IH. destruct (mapM f l1); cbn [bind]; [|reflexivity|reflexivity].
    now destruct (mapM f l2).
Qed.

Lemma mapM_fails {A B : Type} (f : A -> Outcome B) (l : list A) (x : A) :
  In x l -> isOk (f x) = false -> isOk (mapM f l) = false.
Proof.
  induction l as [|y l IH]; intros Hin Hx; [contradiction|].
  cbn [mapM]. destruct Hin as [->|Hin].
  - destruct (f x); [discriminate | reflexivity | reflexivity].
  - destruct (f y); cbn [bind]; [|reflexivity|reflexivity].
    specialize (IH Hin Hx). destruct (mapM f l); [discriminate | reflexivity | reflexivity].
Qed.

Section Folders.

Variable E : Env.

Lemma filesLoop_spec (folder : string) (contents : list (string * option Dir)) :
  forall lines,
  filesLoop E folder contents lines
  = (blocks <- mapM (injectFile E folder) (asmNames E contents) ;;
     Ok (lines ++ concat blocks)).
Proof.
  unfold asmNames.
  induction contents as [|[fileName d] rest IH]; intros lines.
  - cbn. now rewrite app_nil_r.
  - cbn [filesLoop map filter fst]. unfold isAsm at 1.
    destruct (String.eqb (Ext (GOOS E) fileName) ".asm"); cbn [negb]; [|apply IH].
    cbn [mapM]. destruct (injectFile E folder fileName); cbn [bind]; [|reflexivity|reflexivity].
    rewrite IH. destruct (mapM _ _); cbn [bind concat]; [|reflexivity|reflexivity].
    now rewrite app_assoc.
Qed.

Lemma dirsLoop_spec (self : string -> Dir -> Outcome (list string)) (folder : string)
    (contents : list (string * option Dir)) :
  forall lines,
  dirsLoop E self folder contents lines
  = (blocks <- mapM (fun e => self (filepath_Join E folder (fst e)) (snd e))
                    (subDirs contents) ;;
     Ok (lines ++ concat blocks)).
Proof.
  unfold subDirs.
  induction contents as [|[folderName [sub|]] rest IH]; intros lines.
  - cbn. now rewrite app_nil_r.
  - cbn [dirsLoop flat_map fst snd app mapM].
    destruct (self _ sub); cbn [bind]; [|reflexivity|reflexivity].
    rewrite IH. destruct (mapM _ _); cbn [bind concat]; [|reflexivity|reflexivity].
    now rewrite app_assoc.
  - cbn [dirsLoop flat_map fst snd app]. apply IH.
Qed.

(** One file: the address is the last 8 characters of the first line when
    these are valid hex, and the failure names the file otherwise. *)
Lemma injectFile_spec (folder name firstLine : string) :
  firstLineOf E (filepath_Join E folder name) = Some firstLine ->
  let filePath := filepath_Join E folder name in
  if endsInAddress firstLine
  then injectFile E folder name
       = (fileLines <- generateInjectionCodeLines E
                         (substring (String.length firstLine - 8) 8 firstLine) filePath ;;
          annotateFirst fileLines filePath)
  else exists err, injectFile E folder name = Panic (LogPanic (addressErrorMsg filePath) err).
Proof.
  intros Hfirst filePath. subst filePath. unfold injectFile, endsInAddress. rewrite Hfirst.
  destruct (Nat.ltb_spec (String.length firstLine) 8) as [Hshort|Hlong].
  - replace (8 <=? String.length firstLine) with false by (symmetry; apply Nat.leb_gt; lia).
    cbn [andb]. now exists None.
  - replace (8 <=? String.length firstLine) with true by (symmetry; apply Nat.leb_le; lia).
    rewrite str_from_ok by lia. cbn [bind andb].
    replace (String.length firstLine - (String.length firstLine - 8)) with 8 by lia.
    pose proof (DecodeString_valid (substring (String.length firstLine - 8) 8 firstLine)) as V.
    destruct (validHex _).
    + destruct V as [-> _]. reflexivity.
    + destruct (snd (DecodeString _)) as [err|]; [|contradiction]. now exists (Some err).
Qed.

Lemma isAsm_nonempty (name : string) : isAsm E name = true -> name <> "".
Proof. intros H ->. discriminate H. Qed.

(** The block of a file that went through: the lines of Inject at the address
    of the first line, the first of them annotated with the path. *)
Lemma injectFile_ok (folder name firstLine : string) (block : list string) :
  isAsm E name = true ->
  firstLineOf E (filepath_Join E folder name) = Some firstLine ->
  injectFile E folder name = Ok block ->
  exists line rest,
    generateInjectionCodeLines E (substring (String.length firstLine - 8) 8 firstLine)
      (filepath_Join E folder name) = Ok (line :: rest)
    /\ block = (line +++ " #" +++ filepath_Join E folder name) :: rest.
Proof.
  intros Hasm Hfirst Hblock.
  pose proof (injectFile_spec folder name firstLine Hfirst) as Hspec. cbv zeta in Hspec.
  destruct (endsInAddress firstLine).
  - rewrite Hspec in Hblock.
    destruct (generateInjectionCodeLines E _ _) as [fileLines| |] eqn:Hlines;
      cbn [bind] in Hblock; try discriminate.
    pose proof (generateInjectionCodeLines_nonempty E _ _ _ Hlines) as Hne.
    destruct fileLines as [|line rest]; [contradiction|].
    exists line, rest. split; [reflexivity|].
    unfold annotateFirst, addLineAnnotation in Hblock.
    destruct (String.eqb_spec (filepath_Join E folder name) "") as [Hempty|_].
    + exfalso. exact (Join_nonempty E folder name (isAsm_nonempty name Hasm) Hempty).
    + congruence.
  - destruct Hspec as [err Hspec]. congruence.
Qed.

(** C7. InjectFolder takes the entries with the assembly extension in
    listing order, then (when recursive) the subdirectories in listing order,
    each in depth. The address of a file is the last 8 characters of its
    first line; when these are not 8 hex digits the build fails, with the
    message "File at <path> needs to specify the 4 byte injection address at
    the end of the first line of the file" on the file's path when no earlier
    file failed. The first line of each file's output carries the file's path
    as annotation. *)
Theorem injectFolder_layout (folder : string) (contents : list (string * option Dir))
    (isRecursive : bool) :
  let run := generateInjectionFolderLines E folder (DirEntries contents) isRecursive in
  let path := filepath_Join E folder in
  run = (fileBlocks <- mapM (injectFile E folder) (asmNames E contents) ;;
         dirBlocks <-
           (if isRecursive
            then mapM (fun e => generateInjectionFolderLines E (path (fst e)) (snd e)
                                  isRecursive)
                      (subDirs contents)
            else Ok []) ;;
         Ok (concat fileBlocks ++ concat dirBlocks))
  /\ (forall name firstLine,
        firstLineOf E (path name) = Some firstLine ->
        if endsInAddress firstLine
        then injectFile E folder name
             = (fileLines <- generateInjectionCodeLines E
                               (substring (String.length firstLine - 8) 8 firstLine)
                               (path name) ;;
                annotateFirst fileLines (path name))
        else exists err,
               injectFile E folder name
               = Panic (LogPanic
                    ("File at " +++ path name
                     +++ " needs to specify the 4 byte injection address at the end of the first line of the file"
                     +++ String "010"%char "") err))
  /\ (forall name firstLine block,
        isAsm E name = true ->
        firstLineOf E (path name) = Some firstLine ->
        injectFile E folder name = Ok block ->
        exists line rest,
          generateInjectionCodeLines E
            (substring (String.length firstLine - 8) 8 firstLine) (path name)
          = Ok (line :: rest)
          /\ block = (line +++ " #" +++ path name) :: rest)
  /\ (forall name firstLine,
        In name (asmNames E contents) ->
        firstLineOf E (path name) = Some firstLine ->
        endsInAddress firstLine = false ->
        isOk run = false)
  /\ (forall before name after blocks firstLine,
        asmNames E contents = before ++ name :: after ->
        mapM (injectFile E folder) before = Ok blocks ->
        firstLineOf E (path name) = Some firstLine ->
        endsInAddress firstLine = false ->
        exists err,
          run = Panic (LogPanic
                    ("File at " +++ path name
                     +++ " needs to specify the 4 byte injection address at the end of the first line of the file"
                     +++ String "010"%char "") err)).
Proof.
  intros run path.
  assert (Hrun : run = (fileBlocks <- mapM (injectFile E folder) (asmNames E contents) ;;
         dirBlocks <-
           (if isRecursive
            then mapM (fun e => generateInjectionFolderLines E (path (fst e)) (snd e)
                                  isRecursive)
                      (subDirs contents)
            else Ok []) ;;
         Ok (concat fileBlocks ++ concat dirBlocks))).
  { unfold run. cbn [generateInjectionFolderLines]. rewrite filesLoop_spec.
    destruct (mapM (injectFile E folder) (asmNames E contents)) as [fileBlocks| |];
      cbn [bind app]; [|reflexivity|reflexivity].
    destruct isRecursive; cbn [bind concat].
    - now rewrite dirsLoop_spec.
    - now rewrite app_nil_r. }
  split; [exact Hrun|]. split; [|split; [|split]].
  - intros name firstLine Hfirst. exact (injectFile_spec folder name firstLine Hfirst).
  - intros name firstLine block. apply injectFile_ok.
  - intros name firstLine Hin Hfirst Hbad. rewrite Hrun.
    pose proof (injectFile_spec folder name firstLine Hfirst) as Hfile.
    cbv zeta in Hfile. rewrite Hbad in Hfile. destruct Hfile as [err Hfile].
    assert (Hfail : isOk (mapM (injectFile E folder) (asmNames E contents)) = false).
    { apply (mapM_fails _ _ name Hin). now rewrite Hfile. }
    destruct (mapM (injectFile E folder) (asmNames E contents));
      [discriminate | reflexivity | reflexivity].
  - intros before name after blocks firstLine Hnames Hbefore Hfirst Hbad. rewrite Hrun.
    pose proof (injectFile_spec folder name firstLine Hfirst) as Hfile.
    cbv zeta in Hfile. rewrite Hbad in Hfile. destruct Hfile as [err Hfile].
    exists err. rewrite Hnames, mapM_app, Hbefore. cbn [bind mapM].
    fold path in Hfile. now rewrite Hfile.
Qed.

End Folders.

(** ** Exits and writes *)

Lemma exit1_bind {A B : Type} (m : Outcome A) (k : A -> Outcome B) :
  exit1 m -> (forall a, exit1 (k a)) -> exit1 (bind m k).
Proof. destruct m; cbn; auto. Qed.

Ltac exit1_step :=
  match goal with
  | |- exit1 (bind _ _) => apply exit1_bind; [|intro]
  | |- exit1 (Ok _) => exact I
  | |- exit1 (Panic _) => exact I
  | |- exit1 (Exit 1) => reflexivity
  | |- exit1 (if ?b then _ else _) => destruct b
  | |- exit1 (match ?x with _ => _ end) => destruct x
  | |- exit1 (let '(_, _) := ?x in _) => destruct x
  end.

Section Process.

Variable E : Env.

Lemma exit1_slice (s : GoBytes) (i j : nat) : exit1 (slice s i j).
Proof. unfold slice. repeat exit1_step. Qed.

Lemma exit1_str_from (s : string) (i : nat) : exit1 (str_from s i).
Proof. unfold str_from, str_slice. repeat exit1_step. Qed.

Lemma exit1_compile (file : string) : exit1 (compile E file).
Proof. unfold compile. repeat exit1_step; apply exit1_slice. Qed.

Lemma exit1_recordLines (fuel : nat) : forall s i lines, exit1 (recordLines E fuel s i lines).
Proof.
  induction fuel as [|fuel IH]; intros s i lines; cbn [recordLines].
  - repeat exit1_step.
  - destruct (len s <=? i); [exact I|].
    apply exit1_bind; [apply exit1_slice | intros l].
    apply exit1_bind; [apply exit1_slice | intros r]. apply IH.
Qed.

Lemma exit1_generateReplaceCodeLine (address value : string) :
  exit1 (generateReplaceCodeLine E address value).
Proof. unfold generateReplaceCodeLine. exit1_step; [apply exit1_str_from | exact I]. Qed.

Lemma exit1_generateBranchCodeLine (address targetAddress : string) (shouldLink : bool) :
  exit1 (generateBranchCodeLine E address targetAddress shouldLink).
Proof.
  unfold generateBranchCodeLine, branchLine.
  exit1_step; [apply exit1_str_from|]. exit1_step.
  exit1_step; [apply exit1_str_from|]. exit1_step. exit1_step; [exact I|].
  exit1_step; [apply exit1_str_from|]. exit1_step; [apply exit1_str_from | exact I].
Qed.

Lemma exit1_annotateFirst (lines : list string) (annotation : string) :
  exit1 (annotateFirst lines annotation).
Proof. unfold annotateFirst. repeat exit1_step. Qed.

Lemma exit1_generateInjectionCodeLines (address file : string) :
  exit1 (generateInjectionCodeLines E address file).
Proof.
  unfold generateInjectionCodeLines.
  exit1_step; [apply exit1_compile|]. exit1_step; [exact I|]. exit1_step.
  - exit1_step; [apply exit1_slice|].
    exit1_step; [apply exit1_generateReplaceCodeLine | exact I].
  - exit1_step; [apply exit1_str_from | apply exit1_recordLines].
Qed.

Lemma exit1_blockLines (address : string) (s : GoBytes) : exit1 (blockLines E address s).
Proof.
  unfold blockLines. exit1_step; [apply exit1_str_from | apply exit1_recordLines].
Qed.

Lemma exit1_injectFile (folder fileName : string) : exit1 (injectFile E folder fileName).
Proof.
  unfold injectFile, indicateAddressError.
  exit1_step; [|exact I]. exit1_step; [exact I|].
  exit1_step; [apply exit1_str_from|]. exit1_step; [exact I|].
  exit1_step; [apply exit1_generateInjectionCodeLines | apply exit1_annotateFirst].
Qed.

Lemma exit1_filesLoop (folder : string) (contents : list (string * option Dir)) :
  forall lines, exit1 (filesLoop E folder contents lines).
Proof.
  induction contents as [|[fileName d] rest IH]; intros lines; cbn [filesLoop]; [exact I|].
  destruct (negb _); [apply IH|].
  apply exit1_bind; [apply exit1_injectFile | intros; apply IH].
Qed.

Lemma exit1_dirsLoop (self : string -> Dir -> Outcome (list string)) (folder : string)
    (contents : list (string * option Dir)) :
  (forall name sub p, In (name, Some sub) contents -> exit1 (self p sub)) ->
  forall lines, exit1 (dirsLoop E self folder contents lines).
Proof.
  induction contents as [|[folderName [sub|]] rest IH]; intros Hself lines;
    cbn [dirsLoop]; [exact I | |].
  - apply exit1_bind.
    + apply (Hself folderName). now left.
    + intros folderLines. apply IH. intros name sub' p Hin. apply (Hself name). now right.
  - apply IH. intros name sub' p Hin. apply (Hself name). now right.
Qed.

Lemma exit1_generateInjectionFolderLines (isRecursive : bool) (dir : Dir) :
  forall folder, exit1 (generateInjectionFolderLines E folder dir isRecursive).
Proof.
  induction dir as [|contents IH] using Dir_nested_ind; intros folder;
    cbn [generateInjectionFolderLines]; [exact I|].
  apply exit1_bind; [apply exit1_filesLoop | intros lines].
  destruct isRecursive; [|exact I].
  apply exit1_dirsLoop. intros name sub p Hin. apply (IH name sub Hin).
Qed.

Lemma exit1_codeLinesOf (geckoCode : GeckoCode) : exit1 (codeLinesOf E geckoCode).
Proof.
  unfold codeLinesOf, generateReplaceCodeBlockLines, generateReplaceBinaryLines.
  repeat first
    [ apply exit1_generateReplaceCodeLine | apply exit1_generateInjectionCodeLines
    | apply exit1_generateBranchCodeLine | apply exit1_generateInjectionFolderLines
    | apply exit1_annotateFirst | apply exit1_blockLines | apply exit1_compile
    | exit1_step ].
Qed.

Lemma exit1_codeLinesLoop (build : list GeckoCode) :
  forall result, exit1 (codeLinesLoop E build result).
Proof.
  induction build as [|g rest IH]; intros result; cbn [codeLinesLoop]; [exact I|].
  apply exit1_bind; [apply exit1_codeLinesOf | intros; apply IH].
Qed.

(** [buildBody] writes no file, and exits with no status but 1. *)
Lemma buildBody_spec (codes : list CodeDescription) : forall w,
  written (snd (buildBody E codes w)) = written w
  /\ exit1 (fst (buildBody E codes w)).
Proof.
  induction codes as [|code rest IH]; intros w; cbn [buildBody]; [now split|].
  pose proof (exit1_codeLinesLoop (Build code) []) as Hexit.
  unfold generateCodeLines. destruct (codeLinesLoop E (Build code) []); cbn [fst snd].
  - match goal with
    | |- context [buildBody E rest ?w'] => destruct (IH w') as [Hw He]
    end.
    split; [exact Hw | exact He].
  - now split.
  - now split.
Qed.

(** [writeOutput] raises nothing: it makes one call of [ioutil.WriteFile] and
    changes nothing else. *)
Lemma writeOutput_spec (outputFile : string) (w : World) :
  exists data,
    writeOutput E outputFile w = (Ok tt, WriteFile E outputFile data w).
Proof.
  unfold writeOutput, writeGctOutput, writeTextOutput.
  destruct (String.eqb _ _).
  - unfold gctBytesOf. rewrite gctLoop_spec. cbn [bind]. eexists. reflexivity.
  - eexists. reflexivity.
Qed.

Lemma WriteFile_written (outputFile : string) (data : list byte) (w : World) :
  map fst (written (WriteFile E outputFile data w))
  = map fst (written w) ++ filter (writable E) [outputFile].
Proof.
  unfold WriteFile. cbn [filter]. destruct (writable E outputFile); cbn [written].
  - now rewrite map_app.
  - now rewrite app_nil_r.
Qed.

(** The write phase goes through every file; the files it leaves are those
    whose write succeeded. *)
Lemma writeAll_spec (files : list string) : forall w,
  exists w',
    writeAll E files w = (Ok tt, w')
    /\ map fst (written w') = map fst (written w) ++ filter (writable E) files.
Proof.
  induction files as [|file rest IH]; intros w; cbn [writeAll].
  - exists w. now rewrite app_nil_r.
  - destruct (writeOutput_spec file w) as [data ->].
    destruct (IH (WriteFile E file data w)) as (w' & -> & Hw').
    exists w'. split; [reflexivity|].
    rewrite Hw', WriteFile_written, <- app_assoc, <- filter_app. reflexivity.
Qed.

Lemma exit1_startup : exit1 (startup E).
Proof. unfold startup, readConfigFile. repeat exit1_step. Qed.

(** X17. The three ways a run ends. A panic or an exit comes before the write
    phase and leaves no output file, and an exit has status 1; a run that
    raises nothing leaves the configured output files whose write succeeded,
    in order. *)
Theorem run_outcomes :
  match fst (mainBody E initialWorld) with
  | Ok _ =>
      exists config,
        startup E = Ok config
        /\ map fst (written (final (main E))) = filter (writable E) (OutputFiles config)
  | Panic _ => written (final (main E)) = [] /\ status (main E) = 0%Z
  | Exit c => written (final (main E)) = [] /\ c = 1%Z /\ status (main E) = 1%Z
  end.
Proof.
  unfold main, mainBody. pose proof exit1_startup as Hstart.
  destruct (startup E) as [config|p|c]; cbn [fst snd].
  - pose proof (buildBody_spec (Codes config) initialWorld) as [Hw He].
    destruct (buildBody E (Codes config) initialWorld) as [[[]|p|c] w]; cbn [fst snd] in *.
    + destruct (writeAll_spec (OutputFiles config) w) as (w' & -> & Hw').
      cbn [fst final]. exists config. split; [reflexivity|].
      rewrite Hw', Hw. reflexivity.
    + now split.
    + cbn in He. subst c. now split.
  - now split.
  - cbn in Hstart. subst c. now split.
Qed.

End Process.

(** *** The program on concrete worlds *)

(** C8. Not every error is fatal with a non-zero status and no output. With
    no command on the command line, and with a source file that assembles to
    no code, [log.Panic] is caught by the deferred [recover()]: nothing is
    written, but the process ends with status 0. The sibling path, a failure
    of the assembler, ends it with status 1. An output file that cannot be
    written is passed over without a word: the files after it are written and
    the process ends with status 0. *)
Theorem errors_not_all_fatal :
  fst (mainBody (buildWorld ["gecko"] [] nopConfig) initialWorld)
  = Panic (LogPanic
      ("Must provide a command. Try typing 'gecko build'" +++ String "010"%char "") None)
  /\ main (buildWorld ["gecko"] [] nopConfig) = mkProcess 0 (mkWorld [] [])
  /\ fst (mainBody (buildWorld ["gecko"; "build"] [] injectConfig) initialWorld)
     = Panic (LogPanic
         ("Did not find any code in file: code.asm" +++ String "010"%char "") None)
  /\ main (buildWorld ["gecko"; "build"] [] injectConfig)
     = mkProcess 0 (mkWorld ["$Name [Author]"] [])
  /\ fst (mainBody (failingAsWorld injectConfig) initialWorld) = Exit 1
  /\ main (failingAsWorld injectConfig) = mkProcess 1 (mkWorld ["$Name [Author]"] [])
  /\ main (lockedWorld "codes.txt" nopConfig)
     = mkProcess 0
         (mkWorld
            ["$Name [Author]"; "*Desc"; "04001234 60000000 #nop"; ""]
            [("codes.gct",
              [x00; xd0; xc0; xde; x00; xd0; xc0; xde;
               x04; x00; x12; x34; x60; x00; x00; x00;
               xf0; x00; x00; x00; x00; x00; x00; x00])]).
Proof. repeat split. Qed.

(** The end-to-end run of a single Replace entry: the text, and a GCT file of
    header, 8 payload bytes and footer. *)
Example nop_build :
  main (buildWorld ["gecko"; "build"] [] nopConfig)
  = mkProcess 0
      (mkWorld
         ["$Name [Author]"; "*Desc"; "04001234 60000000 #nop"; ""]
         [("codes.txt",
           list_byte_of_string
             ("$Name [Author]" +++ nl +++ "*Desc" +++ nl +++ "04001234 60000000 #nop" +++ nl));
          ("codes.gct",
           [x00; xd0; xc0; xde; x00; xd0; xc0; xde;
            x04; x00; x12; x34; x60; x00; x00; x00;
            xf0; x00; x00; x00; x00; x00; x00; x00])]).
Proof. reflexivity. Qed.

(** A recursive InjectFolder: the two files of the folder in listing order,
    each block annotated with its path, then the file of the subfolder; the
    text file is left out. *)
Example src_folder_lines :
  generateInjectionFolderLines folderWorld "src" (ReadDir folderWorld "src") true
  = Ok ["C2001234 00000002 #src/a.asm"; "38600001 4E800020"; "60000000 00000000";
        "04005678 60000000 #src/b.asm";
        "C2009ABC 00000002 #src/sub/c.asm"; "38600002 38800003"; "4E800020 00000000"]
  /\ generateInjectionFolderLines folderWorld "src" (ReadDir folderWorld "src") false
     = Ok ["C2001234 00000002 #src/a.asm"; "38600001 4E800020"; "60000000 00000000";
           "04005678 60000000 #src/b.asm"].
Proof. split; reflexivity. Qed.

(** * Further properties *)

(** ** Hex text *)

Lemma str_forallb_chars (f : ascii -> bool) (s : string) :
  str_forallb f s = forallb f (chars s).
Proof. induction s as [|c s IH]; cbn; [reflexivity | now rewrite IH]. Qed.

Lemma length_str_map (f : ascii -> ascii) (s : string) :
  String.length (str_map f s) = String.length s.
Proof. induction s as [|c s IH]; cbn; [reflexivity | now rewrite IH]. Qed.

Lemma fromHexChar_upperASCII (c : ascii) : fromHexChar (upperASCII c) = fromHexChar c.
Proof. destruct c as [[] [] [] [] [] [] [] []]; reflexivity. Qed.

Lemma isHexDigit_isASCII (c : ascii) : isHexDigit c = true -> isASCII c = true.
Proof. destruct c as [[] [] [] [] [] [] [] []]; intros H; try reflexivity; discriminate H. Qed.

Lemma validHex_str_map_upper (s : string) :
  validHex (str_map upperASCII s) = validHex s.
Proof.
  unfold validHex. rewrite length_str_map. f_equal.
  induction s as [|c s IH]; cbn [str_map str_forallb]; [reflexivity|].
  rewrite IH. unfold isHexDigit. now rewrite fromHexChar_upperASCII.
Qed.

Lemma DecodeString_str_map_upper (s : string) :
  fst (DecodeString (str_map upperASCII s)) = fst (DecodeString s).
Proof.
  induction s as [|c|c d r IH] using string_pair_ind.
  - reflexivity.
  - cbn [str_map DecodeString]. rewrite fromHexChar_upperASCII.
    now destruct (15 <? fromHexChar c)%N.
  - cbn [str_map DecodeString]. rewrite !fromHexChar_upperASCII.
    destruct (15 <? fromHexChar c)%N; [reflexivity|].
    destruct (15 <? fromHexChar d)%N; [reflexivity|].
    destruct (DecodeString (str_map upperASCII r)) as [x e].
    destruct (DecodeString r) as [y e']. cbn [fst] in *. now rewrite IH.
Qed.

Lemma validHex_ASCII (s : string) : validHex s = true -> str_forallb isASCII s = true.
Proof.
  unfold validHex. intros H. apply andb_prop in H as [H _].
  induction s as [|c s IH]; [reflexivity|].
  cbn [str_forallb] in *. apply andb_prop in H as [Hc Hs].
  now rewrite (isHexDigit_isASCII c Hc), (IH Hs).
Qed.

(** On valid hex, [strings.ToUpper] keeps the length, the validity and the
    bytes the text stands for. *)
Lemma upper_hex (E : Env) (s : string) :
  validHex s = true ->
  String.length (upper E s) = String.length s
  /\ validHex (upper E s) = true
  /\ fst (DecodeString (upper E s)) = fst (DecodeString s).
Proof.
  intros H. unfold upper, ToUpper. rewrite (validHex_ASCII s H).
  now rewrite length_str_map, validHex_str_map_upper, DecodeString_str_map_upper.
Qed.

Lemma EncodeToString_byte (v : byte) :
  byteOfN (N.lor (N.shiftl (fromHexChar (tableChar hextable (N.shiftr (Byte.to_N v) 4))) 4)
                 (fromHexChar (tableChar hextable (N.land (Byte.to_N v) 15)))) = v
  /\ isHexDigit (tableChar hextable (N.shiftr (Byte.to_N v) 4)) = true
  /\ isHexDigit (tableChar hextable (N.land (Byte.to_N v) 15)) = true.
Proof. destruct v; vm_compute; repeat split. Qed.

(** [hex.EncodeToString] gives valid hex, two characters a byte, that
    [hex.DecodeString] reads back. *)
Lemma EncodeToString_hex (src : list byte) :
  String.length (EncodeToString src) = 2 * length src
  /\ validHex (EncodeToString src) = true
  /\ DecodeString (EncodeToString src) = (src, None).
Proof.
  induction src as [|v r (Hlen & Hvalid & Hdec)]; [repeat split|].
  destruct (EncodeToString_byte v) as (Hv & Hhi & Hlo).
  cbn [EncodeToString String.length length]. split; [lia|]. split.
  - unfold validHex in *. cbn [str_forallb String.length Nat.even].
    rewrite Hhi, Hlo. exact Hvalid.
  - cbn [DecodeString]. unfold isHexDigit in Hhi, Hlo.
    apply N.leb_le in Hhi, Hlo.
    destruct (N.ltb_spec 15 (fromHexChar (tableChar hextable (N.shiftr (Byte.to_N v) 4))));
      [lia|].
    destruct (N.ltb_spec 15 (fromHexChar (tableChar hextable (N.land (Byte.to_N v) 15))));
      [lia|].
    now rewrite Hdec, Hv.
Qed.

(** ** Lines the GCT serializer accepts *)

Lemma substring_app_l (a b : string) : substring 0 (String.length a) (a +++ b) = a.
Proof.
  apply chars_inj. rewrite chars_substring, chars_app, <- chars_length. cbn [skipn].
  rewrite firstn_app, Nat.sub_diag, firstn_all. cbn [firstn]. apply app_nil_r.
Qed.

(** A line made of two words of 8 characters with one character between
    them, whatever follows: it is a code line exactly when both words are
    valid hex, and its payload is the bytes of the two words. *)
Lemma codeLine_of_words (p q rest : string) (sep : ascii) :
  String.length p = 8 -> String.length q = 8 ->
  isCodeLine (p +++ String sep (q +++ rest)) = validHex p && validHex q
  /\ codeLinePayload (p +++ String sep (q +++ rest))
     = fst (DecodeString p) ++ fst (DecodeString q).
Proof.
  intros Hp Hq.
  assert (H0 : substring 0 8 (p +++ String sep (q +++ rest)) = p).
  { rewrite <- Hp. apply substring_app_l. }
  assert (H9 : substring 9 8 (p +++ String sep (q +++ rest)) = q).
  { replace (p +++ String sep (q +++ rest))
      with ((p +++ String sep EmptyString) +++ (q +++ rest)) by str_equal.
    replace 9 with (String.length (p +++ String sep EmptyString))
      by (rewrite length_app_str, Hp; reflexivity).
    apply chars_inj. rewrite chars_substring, chars_app, <- chars_length.
    rewrite skipn_app, skipn_all, Nat.sub_diag. cbn [skipn app].
    rewrite chars_app, <- Hq, <- chars_length, firstn_app, Nat.sub_diag, firstn_all.
    cbn [firstn]. apply app_nil_r. }
  unfold isCodeLine, codeLinePayload. rewrite H0, H9. split; [|reflexivity].
  rewrite length_app_str. cbn [String.length]. rewrite length_app_str, Hp, Hq.
  reflexivity.
Qed.

Lemma append_empty_r (s : string) : s +++ "" = s.
Proof. induction s as [|c s IH]; cbn; [reflexivity | now rewrite IH]. Qed.

Lemma substring_app_within (a b : string) (n m : nat) :
  n + m <= String.length a -> substring n m (a +++ b) = substring n m a.
Proof.
  intros H. apply chars_inj. rewrite !chars_substring, chars_app, skipn_app, firstn_app.
  rewrite length_skipn, chars_length.
  replace (m - (String.length a - n)) with 0 by lia.
  cbn [firstn]. apply app_nil_r.
Qed.

Lemma validHex_substring (s : string) (n : nat) :
  validHex (substring n 8 s)
  = forallb isHexDigit (firstn 8 (skipn n (chars s)))
    && Nat.even (length (firstn 8 (skipn n (chars s)))).
Proof. unfold validHex. now rewrite str_forallb_chars, <- chars_length, chars_substring. Qed.

Lemma forallb_firstn_bad {A : Type} (f : A -> bool) (x : A) (r : list A) :
  f x = false ->
  forall (a : list A) (k : nat), length a < k -> forallb f (firstn k (a ++ x :: r)) = false.
Proof.
  intros Hx. induction a as [|y a IH]; intros k Hk.
  - destruct k; [lia|]. cbn. now rewrite Hx.
  - destruct k; [cbn in Hk; lia|]. cbn [app firstn forallb].
    rewrite IH by (cbn in Hk; lia). apply andb_false_r.
Qed.

(** An annotation changes neither whether a line is a code line nor the
    bytes it stands for. *)
Lemma addLineAnnotation_codeLine (line annotation : string) :
  isCodeLine (addLineAnnotation line annotation) = isCodeLine line
  /\ (isCodeLine line = true ->
      codeLinePayload (addLineAnnotation line annotation) = codeLinePayload line).
Proof.
  unfold addLineAnnotation. destruct (String.eqb annotation ""); [now split|].
  destruct (Nat.leb_spec 17 (String.length line)) as [Hlong|Hshort].
  - unfold isCodeLine, codeLinePayload.
    rewrite !(substring_app_within line) by lia.
    rewrite length_app_str.
    replace (17 <=? String.length line) with true by (symmetry; apply Nat.leb_le; lia).
    replace (17 <=? String.length line + String.length (" #" +++ annotation)) with true
      by (symmetry; apply Nat.leb_le; lia).
    now split.
  - assert (Hline : isCodeLine line = false).
    { unfold isCodeLine.
      now replace (17 <=? String.length line) with false by (symmetry; apply Nat.leb_gt; lia). }
    rewrite Hline. split; [|discriminate].
    unfold isCodeLine. rewrite !validHex_substring, chars_app.
    cbn [String.append list_ascii_of_string]. rewrite <- chars_length in Hshort.
    set (l := chars line) in *. set (r := chars annotation).
    destruct (Nat.ltb_spec (length l) 8) as [H8|H8].
    + rewrite skipn_O, (forallb_firstn_bad isHexDigit " "%char _ eq_refl l 8 H8).
      now rewrite andb_false_l, andb_false_r.
    + rewrite (skipn_app 9). destruct (Nat.eqb_spec (length l) 8) as [Heq|Hne].
      * rewrite (skipn_all2 l) by lia. rewrite Heq.
        change (firstn 8 ([] ++ skipn (9 - 8) (" "%char :: "#"%char :: r)))
          with ("#"%char :: firstn 7 r).
        change (forallb isHexDigit ("#"%char :: firstn 7 r)) with false.
        now rewrite andb_false_l, andb_false_r.
      * replace (9 - length l) with 0 by lia. rewrite !skipn_O.
        rewrite (forallb_firstn_bad isHexDigit " "%char _ eq_refl (skipn 9 l) 8)
          by (rewrite length_skipn; lia).
        now rewrite andb_false_l, andb_false_r.
Qed.

Lemma annotated_words (p q annotation : string) :
  exists rest, addLineAnnotation (p +++ " " +++ q) annotation = p +++ String " " (q +++ rest).
Proof.
  unfold addLineAnnotation. destruct (String.eqb annotation "").
  - exists "". now rewrite append_empty_r.
  - exists (" #" +++ annotation). str_equal.
Qed.

Section Round_trips.

Variable E : Env.

(** The line of a record of 8 bytes is a code line that stands for these
    bytes. *)
Lemma recordLine_codeLine (r : list byte) :
  length r = 8 ->
  isCodeLine (recordLine E r) = true /\ codeLinePayload (recordLine E r) = r.
Proof.
  intros Hr. unfold recordLine.
  destruct (EncodeToString_hex (firstn 4 r)) as (Hl1 & Hv1 & Hd1).
  destruct (EncodeToString_hex (skipn 4 r)) as (Hl2 & Hv2 & Hd2).
  destruct (upper_hex E _ Hv1) as (Hul1 & Huv1 & Hud1).
  destruct (upper_hex E _ Hv2) as (Hul2 & Huv2 & Hud2).
  rewrite length_firstn in Hl1. rewrite length_skipn in Hl2.
  rewrite <- (append_empty_r (upper E (EncodeToString (skipn 4 r)))).
  destruct (codeLine_of_words (upper E (EncodeToString (firstn 4 r)))
              (upper E (EncodeToString (skipn 4 r))) "" " "%char) as [Hcode Hpay];
    [lia | lia |].
  change (" " +++ ?x) with (String " " x). rewrite Hcode, Hpay, Huv1, Huv2.
  split; [reflexivity|].
  rewrite Hud1, Hud2, Hd1, Hd2. apply firstn_skipn.
Qed.

Lemma chunks8_lengths (k : nat) : forall l : list byte,
  length l = 8 * k -> Forall (fun r => length r = 8) (chunks8 k l).
Proof.
  induction k as [|k IH]; intros l H; cbn [chunks8]; constructor.
  - rewrite length_firstn. lia.
  - apply IH. rewrite length_skipn. lia.
Qed.

Lemma records_codeLines (rs : list (list byte)) :
  Forall (fun r => length r = 8) rs ->
  filter isCodeLine (map (recordLine E) rs) = map (recordLine E) rs
  /\ payloadOf (map (recordLine E) rs) = concat rs.
Proof.
  unfold payloadOf. induction 1 as [|r rs Hr Hrs [IHf IHp]]; [now split|].
  destruct (recordLine_codeLine r Hr) as [Hcode Hpay].
  cbn [map filter]. rewrite Hcode. cbn [map concat]. rewrite IHf in *.
  split; [reflexivity|]. now rewrite Hpay, IHp.
Qed.

Lemma concat_chunks8_firstn (k : nat) : forall l : list byte,
  8 * k <= length l -> concat (chunks8 k l) = firstn (8 * k) l.
Proof.
  induction k as [|k IH]; intros l H; [reflexivity|].
  cbn [chunks8 concat]. rewrite IH by (rewrite length_skipn; lia).
  replace (8 * S k) with (8 + 8 * k) by lia.
  rewrite <- (firstn_skipn 8 l) at 3.
  rewrite firstn_app, length_firstn, firstn_firstn.
  replace (Nat.min (8 + 8 * k) 8) with 8 by lia.
  now replace (8 + 8 * k - Nat.min 8 (length l)) with (8 * k) by lia.
Qed.

Lemma chunks8_lengths_within (k : nat) : forall l : list byte,
  8 * k <= length l -> Forall (fun r => length r = 8) (chunks8 k l).
Proof.
  induction k as [|k IH]; intros l H; cbn [chunks8]; constructor.
  - rewrite length_firstn. lia.
  - apply IH. rewrite length_skipn. lia.
Qed.

Lemma record_lines_round_trip_aux (l : list byte) :
  filter isCodeLine (recordsOf E l) = recordsOf E l
  /\ (length l mod 8 = 0 ->
      concat (map codeLinePayload (filter isCodeLine (recordsOf E l))) = l).
Proof.
  assert (Hk : 8 * (length l / 8) <= length l)
    by (pose proof (Nat.div_mod_eq (length l) 8); lia).
  destruct (records_codeLines (chunks8 (length l / 8) l) (chunks8_lengths_within _ _ Hk))
    as [Hf Hp].
  unfold recordsOf, payloadOf in *. split; [exact Hf|].
  intros Hmod. rewrite Hp, concat_chunks8_firstn by exact Hk.
  apply firstn_all2. pose proof (Nat.div_mod_eq (length l) 8). lia.
Qed.

(** X3. On a block of bytes whose length is a multiple of 8, the loop the
    encoders share adds, after the lines built so far, one line for each 8
    bytes; every added line is a code line, and the GCT serializer reads the
    block back from them: the added lines alone serialize to the header
    00 D0 C0 DE 00 D0 C0 DE, the bytes of the block and the footer
    F0 00 00 00 00 00 00 00. *)
Theorem record_lines_round_trip (s : GoBytes) (lines : list string) :
  len s mod 8 = 0 ->
  exists added,
    recordLines E (len s) s 0 lines = Ok (lines ++ added)
    /\ length added = len s / 8
    /\ filter isCodeLine added = added
    /\ gctBytesOf added
       = Ok ([x00; xd0; xc0; xde; x00; xd0; xc0; xde] ++ elems s
             ++ [xf0; x00; x00; x00; x00; x00; x00; x00]).
Proof.
  intros Hmod. exists (recordsOf E (elems s)).
  destruct (record_lines_round_trip_aux (elems s)) as [Hf Hp].
  split; [exact (recordLines_aligned E s lines Hmod)|].
  split; [unfold recordsOf; now rewrite length_map, length_chunks8|].
  split; [exact Hf|].
  unfold gctBytesOf. rewrite gctLoop_spec, (Hp Hmod). cbn [bind].
  unfold gctHeader, gctFooter. now rewrite <- app_assoc.
Qed.

(** X2. Annotating the first line of a block changes nothing in the binary
    output: the annotated line is a code line exactly when the line is, and
    the bytes of the block stay the same. *)
Theorem annotation_keeps_payload (lines : list string) (annotation : string) :
  (forall line, isCodeLine (addLineAnnotation line annotation) = isCodeLine line)
  /\ (forall annotated,
        annotateFirst lines annotation = Ok annotated ->
        length annotated = length lines /\ payloadOf annotated = payloadOf lines).
Proof.
  split; [intros line; apply addLineAnnotation_codeLine|].
  intros annotated H. unfold annotateFirst in H.
  destruct lines as [|line rest]; [discriminate|]. injection H as <-.
  split; [reflexivity|].
  destruct (addLineAnnotation_codeLine line annotation) as [Hcode Hpay].
  unfold payloadOf. cbn [filter]. rewrite Hcode.
  destruct (isCodeLine line); [|reflexivity].
  cbn [map concat]. now rewrite Hpay.
Qed.

(** X1. A Replace entry with an address of 8 characters whose last 6 are hex
    digits and a value of 8 hex digits gives a line that the GCT serializer
    accepts, annotated or not; its 8 bytes are 04, the three address bytes
    and the four bytes of the value. *)
Theorem replace_line_in_gct (address value a annotation : string) :
  str_from address 2 = Ok a ->
  String.length a = 6 -> validHex a = true ->
  String.length value = 8 -> validHex value = true ->
  exists line,
    generateReplaceCodeLine E address value = Ok line
    /\ isCodeLine (addLineAnnotation line annotation) = true
    /\ codeLinePayload (addLineAnnotation line annotation)
       = x04 :: fst (DecodeString a) ++ fst (DecodeString value).
Proof.
  intros Ha Hla Hva Hlv Hvv. unfold generateReplaceCodeLine. rewrite Ha. cbn [bind].
  eexists. split; [reflexivity|].
  destruct (upper_hex E a Hva) as (Hula & Huva & Huda).
  destruct (upper_hex E value Hvv) as (Hulv & Huvv & Hudv).
  replace ("04" +++ upper E a +++ " " +++ upper E value)
    with (("04" +++ upper E a) +++ " " +++ upper E value) by str_equal.
  destruct (annotated_words ("04" +++ upper E a) (upper E value) annotation) as [rest ->].
  destruct (codeLine_of_words ("04" +++ upper E a) (upper E value) rest " "%char)
    as [Hcode Hpay].
  - cbn [String.append String.length]. lia.
  - lia.
  - rewrite Hcode, Hpay, Huvv, Hudv. split.
    + unfold validHex in *. cbn [String.append str_forallb String.length Nat.even].
      apply andb_prop in Huva as [Hf He]. now rewrite Hf, He.
    + cbn [String.append DecodeString].
      change (15 <? fromHexChar "0")%N with false. change (15 <? fromHexChar "4")%N with false.
      cbv iota. destruct (DecodeString (upper E a)) as [x e] eqn:Hd.
      cbn [fst] in *. now rewrite Huda.
Qed.

Lemma hexDigitsLE_length (k : nat) : forall fuel v,
  (0 <= v < 16 ^ Z.of_nat (S k))%Z -> length (hexDigitsLE fuel v) <= S k.
Proof.
  induction k as [|k IH]; intros fuel v Hv; (destruct fuel as [|fuel]; [cbn; lia|]);
    cbn [hexDigitsLE length].
  - assert (H0 : (v / 16 = 0)%Z) by (apply Z.div_small; change (16 ^ Z.of_nat 1)%Z with 16%Z in Hv; lia).
    rewrite H0. cbn. lia.
  - destruct (v / 16 =? 0)%Z; [cbn; lia|].
    apply le_n_S, IH. split; [apply Z.div_pos; lia|].
    apply Z.div_lt_upper_bound; [lia|].
    rewrite Nat2Z.inj_succ, Z.pow_succ_r in Hv by lia. lia.
Qed.

Lemma isHexDigit_udigit (d : Z) : (0 <= d < 16)%Z -> isHexDigit (udigit d) = true.
Proof.
  intros H.
  assert (Hd : (d = 0 \/ d = 1 \/ d = 2 \/ d = 3 \/ d = 4 \/ d = 5 \/ d = 6 \/ d = 7 \/
                d = 8 \/ d = 9 \/ d = 10 \/ d = 11 \/ d = 12 \/ d = 13 \/ d = 14 \/ d = 15)%Z)
    by lia.
  repeat (destruct Hd as [Hd|Hd]; [subst d; reflexivity|]). subst d. reflexivity.
Qed.

(** A value below [2^32] prints as exactly eight hex digits. *)
Lemma SprintfX8_hex (v : Z) :
  (0 <= v < 2 ^ 32)%Z ->
  SprintfX 8 v = string_of_list_ascii (map udigit (rev (lowDigits 8 v)))
  /\ String.length (SprintfX 8 v) = 8
  /\ validHex (SprintfX 8 v) = true.
Proof.
  intros Hv.
  assert (Heq : SprintfX 8 v = string_of_list_ascii (map udigit (rev (lowDigits 8 v)))).
  { unfold SprintfX. do 3 f_equal.
    pose proof (hexDigitsLE_length 7 16 v Hv) as Hlen.
    rewrite <- (hexDigitsLE_low 8 16 v) by lia.
    symmetry. apply firstn_all2. rewrite length_app, repeat_length. lia. }
  rewrite Heq. split; [reflexivity|].
  assert (Hl : String.length (string_of_list_ascii (map udigit (rev (lowDigits 8 v)))) = 8).
  { now rewrite <- chars_length, list_ascii_of_string_of_list_ascii, length_map, length_rev,
      length_lowDigits. }
  split; [exact Hl|]. unfold validHex. rewrite Hl, andb_true_r.
  rewrite str_forallb_chars, list_ascii_of_string_of_list_ascii.
  apply forallb_forall. intros c Hc. apply in_map_iff in Hc as (d & <- & Hd).
  apply isHexDigit_udigit. apply in_rev in Hd. pose proof (lowDigits_bounded 8 v) as Hb.
  rewrite Forall_forall in Hb. now apply Hb.
Qed.

Lemma elems_packInjection (s : GoBytes) :
  elems (packInjection E s)
  = elems s ++ (if len s mod 8 =? 0
                then [x60; x00; x00; x00; x00; x00; x00; x00]
                else [x00; x00; x00; x00]).
Proof. unfold packInjection, app_bytes. destruct (len s mod 8 =? 0); apply elems_append. Qed.

(** What Inject returns for a whole number of words other than one. *)
Lemma inject_lines (address file a : string) (s : GoBytes) :
  compile E file = Ok s -> str_from address 2 = Ok a ->
  len s <> 0 -> len s <> 4 -> len s mod 4 = 0 ->
  generateInjectionCodeLines E address file
  = Ok (("C2" +++ upper E a +++ " "
         +++ SprintfX 8 (Z.of_nat (len (packInjection E s) / 8)))
        :: recordsOf E (elems (packInjection E s))).
Proof.
  intros Hcompile Haddr H0 H4 Hwords. unfold generateInjectionCodeLines.
  rewrite Hcompile. cbn [bind].
  destruct (Nat.eqb_spec (len s) 0) as [|_]; [contradiction|].
  destruct (Nat.eqb_spec (len s) 4) as [|_]; [contradiction|].
  rewrite Haddr. cbn [bind].
  now rewrite (recordLines_aligned E _ _ (packInjection_aligned E s Hwords)).
Qed.

(** X4. The GCT bytes of an injected block: for an address whose last 6
    characters are hex digits and a compiled sequence of whole words (other
    than a single word) with fewer than [2^32] records, every line of the
    block is a code line; the payload is C2 and the address, the record
    count, then the packed bytes, whatever the annotation. *)
Theorem inject_block_in_gct (address file a annotation : string) (s : GoBytes) :
  compile E file = Ok s -> str_from address 2 = Ok a ->
  String.length a = 6 -> validHex a = true ->
  len s <> 0 -> len s <> 4 -> len s mod 4 = 0 ->
  (Z.of_nat (len (packInjection E s) / 8) < 2 ^ 32)%Z ->
  exists lines annotated,
    generateInjectionCodeLines E address file = Ok lines
    /\ annotateFirst lines annotation = Ok annotated
    /\ filter isCodeLine annotated = annotated
    /\ payloadOf annotated
       = (xc2 :: fst (DecodeString a))
         ++ fst (DecodeString (SprintfX 8 (Z.of_nat (len (packInjection E s) / 8))))
         ++ elems (packInjection E s).
Proof.
  intros Hcompile Haddr Hla Hva H0 H4 Hwords Hcount.
  rewrite (inject_lines _ _ _ _ Hcompile Haddr H0 H4 Hwords). cbn [annotateFirst].
  do 2 eexists. split; [reflexivity|]. split; [reflexivity|].
  set (count := SprintfX 8 _).
  destruct (SprintfX8_hex (Z.of_nat (len (packInjection E s) / 8)) ltac:(lia))
    as (_ & Hlc & Hvc). fold count in Hlc, Hvc.
  destruct (upper_hex E a Hva) as (Hula & Huva & Huda).
  destruct (record_lines_round_trip_aux (elems (packInjection E s))) as (Hrf & Hrp).
  replace ("C2" +++ upper E a +++ " " +++ count)
    with (("C2" +++ upper E a) +++ " " +++ count) by str_equal.
  destruct (annotated_words ("C2" +++ upper E a) count annotation) as [rest ->].
  destruct (codeLine_of_words ("C2" +++ upper E a) count rest " "%char) as [Hcode Hpay].
  - cbn [String.append String.length]. lia.
  - exact Hlc.
  - assert (Hhead : validHex ("C2" +++ upper E a) = true).
    { unfold validHex in *. cbn [String.append str_forallb String.length Nat.even].
      apply andb_prop in Huva as [Hf He]. now rewrite Hf, He. }
    rewrite Hhead, Hvc in Hcode. cbn [andb] in Hcode. rewrite Hrf in Hrp.
    unfold payloadOf in *. cbn [filter].
    rewrite Hcode, Hrf. split; [reflexivity|].
    cbn [map concat]. rewrite Hpay, Hrp by (apply (packInjection_aligned E s Hwords)).
    rewrite <- app_assoc. f_equal.
    cbn [String.append DecodeString].
    change (15 <? fromHexChar "C")%N with false. change (15 <? fromHexChar "2")%N with false.
    cbv iota. destruct (DecodeString (upper E a)) as [x e] eqn:Hd.
    cbn [fst] in *. now rewrite Huda.
Qed.

Lemma last_chunks8 (k : nat) : forall (l d : list byte),
  length l = 8 * S k -> last (chunks8 (S k) l) d = skipn (8 * k) l.
Proof.
  induction k as [|k IH]; intros l d H.
  - change (8 * 0) with 0. cbn [chunks8 last skipn]. apply firstn_all2. lia.
  - change (last (chunks8 (S (S k)) l) d) with (last (chunks8 (S k) (skipn 8 l)) d).
    rewrite IH by (rewrite length_skipn; lia).
    rewrite skipn_skipn. f_equal. lia.
Qed.

Lemma last_map_cons {A B : Type} (f : A -> B) (x : A) (l : list A) (d : A) (d' : B) :
  last (map f (x :: l)) d' = f (last (x :: l) d).
Proof.
  revert x. induction l as [|y l IH]; intros x; [reflexivity|].
  change (last (map f (x :: y :: l)) d') with (last (map f (y :: l)) d').
  change (last (x :: y :: l) d) with (last (y :: l) d). apply IH.
Qed.

(** X5. An injected block ends with the zero word: for a compiled sequence
    of whole words (other than none or one), the last line of the block is
    ["<word> 00000000"], and the block has one line more than the header
    counts records. *)
Theorem inject_block_terminator (address file a : string) (s : GoBytes) :
  compile E file = Ok s -> str_from address 2 = Ok a ->
  len s <> 0 -> len s <> 4 -> len s mod 4 = 0 ->
  exists lines left,
    generateInjectionCodeLines E address file = Ok lines
    /\ length lines = 1 + len (packInjection E s) / 8
    /\ 2 <= length lines
    /\ last lines "" = left +++ " 00000000".
Proof.
  intros Hcompile Haddr H0 H4 Hwords.
  rewrite (inject_lines _ _ _ _ Hcompile Haddr H0 H4 Hwords).
  pose proof (packInjection_aligned E s Hwords) as Hal.
  pose proof (len_packInjection E s) as Hlen.
  assert (Hpos : 8 <= len (packInjection E s)).
  { pose proof (Nat.div_mod_eq (len (packInjection E s)) 8).
    destruct (len s mod 8 =? 0); lia. }
  destruct (len (packInjection E s) / 8) as [|k] eqn:Hk.
  { pose proof (Nat.div_mod_eq (len (packInjection E s)) 8). lia. }
  assert (Hpacked : length (elems (packInjection E s)) = 8 * S k).
  { pose proof (Nat.div_mod_eq (len (packInjection E s)) 8). unfold len in *. lia. }
  eexists. exists (upper E (EncodeToString (firstn 4 (skipn (8 * k) (elems (packInjection E s)))))).
  split; [reflexivity|].
  unfold recordsOf. fold (len (packInjection E s)). rewrite Hk.
  cbn [length]. rewrite length_map, length_chunks8.
  split; [reflexivity|]. split; [lia|].
  set (packed := elems (packInjection E s)) in *.
  match goal with
  | |- last (?header :: _) _ = _ =>
      change (last (header :: map (recordLine E) (chunks8 (S k) packed)) "")
        with (last (map (recordLine E) (firstn 8 packed :: chunks8 k (skipn 8 packed))) "")
  end.
  rewrite (last_map_cons (recordLine E) _ _ []).
  change (firstn 8 packed :: chunks8 k (skipn 8 packed)) with (chunks8 (S k) packed).
  rewrite (last_chunks8 k _ [] Hpacked). subst packed. unfold recordLine. do 2 f_equal.
  rewrite skipn_skipn.
  assert (Hzero : skipn (4 + 8 * k) (elems (packInjection E s)) = [x00; x00; x00; x00]).
  { rewrite elems_packInjection in *. rewrite length_app in Hpacked.
    destruct (len s mod 8 =? 0); cbn [length] in Hpacked.
    - change [x60; x00; x00; x00; x00; x00; x00; x00]
        with ([x60; x00; x00; x00] ++ [x00; x00; x00; x00]).
      rewrite app_assoc, skipn_app, skipn_all2 by (rewrite length_app; cbn [length]; lia).
      rewrite length_app. cbn [length app].
      now replace (4 + 8 * k - (length (elems s) + 4)) with 0 by lia.
    - rewrite skipn_app, skipn_all2 by lia. cbn [app].
      now replace (4 + 8 * k - length (elems s)) with 0 by lia. }
  rewrite Hzero. reflexivity.
Qed.

End Round_trips.

(** ** More on branch lines *)

Lemma validHex_hex6 (v : Z) : validHex (hex6 v) = true.
Proof.
  unfold validHex. rewrite length_hex6, andb_true_r. unfold hex6.
  rewrite str_forallb_chars, list_ascii_of_string_of_list_ascii.
  apply forallb_forall. intros c Hc. apply in_map_iff in Hc as (d & <- & Hd).
  apply isHexDigit_udigit. apply in_rev in Hd. pose proof (lowDigits_bounded 6 v) as Hb.
  rewrite Forall_forall in Hb. now apply Hb.
Qed.

Lemma str_from_2 (s : string) :
  str_from s 2
  = if 2 <=? String.length s then Ok (substring 2 (String.length s - 2) s)
    else Panic boundsError.
Proof. unfold str_from, str_slice. now rewrite Nat.leb_refl, andb_true_r. Qed.

Section Branch_more.

Variable E : Env.

(** X6. [generateBranchCodeLine] returns a line exactly when both addresses
    have at least 2 characters and the target, without its first two
    characters, parses as a 32-bit hex number; whether the base parses plays
    no part. *)
Theorem branch_returns_iff (address targetAddress : string) (shouldLink : bool) :
  isOk (generateBranchCodeLine E address targetAddress shouldLink)
  = (2 <=? String.length address) && (2 <=? String.length targetAddress)
    && match snd (ParseUint (substring 2 (String.length targetAddress - 2) targetAddress)
                    16 32) with
       | None => true
       | Some _ => false
       end.
Proof.
  unfold generateBranchCodeLine.
  pose proof (branchLine_ok E address) as Hline. rewrite !str_from_2 in *.
  destruct (2 <=? String.length address); [|reflexivity]. cbn [bind andb].
  destruct (ParseUint (substring 2 (String.length address - 2) address) 16 32) as [au e1].
  destruct (2 <=? String.length targetAddress); [|reflexivity]. cbn [bind andb].
  destruct (ParseUint _ 16 32) as [tu [e2|]]; [reflexivity|]. cbn [snd].
  now rewrite (Hline _ au tu shouldLink eq_refl).
Qed.

(** X7. The displacement field of a branch line is the difference of target
    and base modulo [2^24], and one more for BranchAndLink: also for a
    backward branch, and for whatever value the base was read as. With an
    address of 8 characters that end in 6 hex digits, the line is a code line
    of the GCT container. *)
Theorem branch_field_value (address targetAddress a t : string)
    (addressUint targetAddressUint : Z) (err : option GoError) (shouldLink : bool) :
  str_from address 2 = Ok a -> ParseUint a 16 32 = (addressUint, err) ->
  str_from targetAddress 2 = Ok t -> ParseUint t 16 32 = (targetAddressUint, None) ->
  exists line,
    generateBranchCodeLine E address targetAddress shouldLink = Ok line
    /\ displacementField line
       = (((targetAddressUint - addressUint + (if shouldLink then 1 else 0)) mod 2 ^ 24)%Z,
          None)
    /\ (String.length a = 6 -> validHex a = true -> isCodeLine line = true).
Proof.
  intros Ha Hpa Ht Hpt.
  rewrite (generateBranchCodeLine_parsed E _ _ _ _ _ _ _ _ Ha Hpa Ht Hpt).
  rewrite (branchLine_ok E _ _ _ _ _ Ha). eexists. split; [reflexivity|].
  set (v := if shouldLink then _ else _).
  assert (Hv : (0 <= v)%Z).
  { subst v. destruct shouldLink; apply wrap64_range. }
  split.
  - rewrite (displacementField_line _ _ Hv). f_equal. subst v.
    assert (Hdiv : (2 ^ 24 | 2 ^ 64)%Z) by (exists (2 ^ 40)%Z; reflexivity).
    destruct shouldLink; unfold wrap64.
    + rewrite Z.mod_mod_divide by exact Hdiv.
      rewrite <- Z.add_mod_idemp_l by discriminate.
      rewrite Z.mod_mod_divide by exact Hdiv.
      now rewrite Z.add_mod_idemp_l by discriminate.
    + rewrite Z.add_0_r. now apply Z.mod_mod_divide.
  - intros Hla Hva. destruct (upper_hex E a Hva) as (Hula & Huva & _).
    replace ("04" +++ upper E a +++ " " +++ "48" +++ hex6 v)
      with (("04" +++ upper E a) +++ String " " (("48" +++ hex6 v) +++ "")).
    2:{ rewrite append_empty_r. str_equal. }
    destruct (codeLine_of_words ("04" +++ upper E a) ("48" +++ hex6 v) "" " "%char)
      as [Hcode _].
    + cbn [String.append String.length]. lia.
    + cbn [String.append String.length]. now rewrite length_hex6.
    + rewrite Hcode. pose proof (validHex_hex6 v) as Hh.
      unfold validHex in *. cbn [String.append str_forallb String.length Nat.even].
      apply andb_prop in Huva as [Hf He]. apply andb_prop in Hh as [Hf' He'].
      now rewrite Hf, He, Hf', He'.
Qed.

End Branch_more.

Lemma branch_field_value_witness :
  str_from "80000010" 2 = Ok "000010"
  /\ ParseUint "000010" 16 32 = (16%Z, None)
  /\ str_from "80000000" 2 = Ok "000000"
  /\ ParseUint "000000" 16 32 = (0%Z, None)
  /\ exists line,
       generateBranchCodeLine (asmWorld []) "80000010" "80000000" true = Ok line
       /\ displacementField line = (16777201%Z, None)
       /\ (String.length "000010" = 6 -> validHex "000010" = true -> isCodeLine line = true).
Proof.
  repeat (split; [reflexivity|]).
  exact (branch_field_value (asmWorld []) "80000010" "80000000" "000010" "000000"
           16%Z 0%Z None true eq_refl eq_refl eq_refl eq_refl).
Defined.

(** ** The output sequence *)

Lemma fold_left_snoc {A B : Type} (f : A -> B) (l : list A) : forall init,
  fold_left (fun acc x => acc ++ [f x]) l init = init ++ map f l.
Proof.
  induction l as [|x l IH]; intros init; cbn [fold_left map].
  - now rewrite app_nil_r.
  - rewrite IH, <- app_assoc. reflexivity.
Qed.

(** X8. The header lines of a description are the line [$name [authors]]
    and one line [*text] for each line of the description, in order; none of
    them is ever a code line, so names and descriptions never reach the GCT
    output. *)
Theorem header_lines_shape (desc : CodeDescription) :
  generateHeaderLines desc
  = ("$" +++ Name desc +++ " [" +++ Join (Authors desc) ", " +++ "]")
    :: map (fun line => "*" +++ line) (Description desc)
  /\ length (generateHeaderLines desc) = 1 + length (Description desc)
  /\ filter isCodeLine (generateHeaderLines desc) = []
  /\ payloadOf (generateHeaderLines desc) = [].
Proof.
  assert (Hshape : generateHeaderLines desc
            = ("$" +++ Name desc +++ " [" +++ Join (Authors desc) ", " +++ "]")
              :: map (fun line => "*" +++ line) (Description desc)).
  { unfold generateHeaderLines. now rewrite (fold_left_snoc (fun line => "*" +++ line)). }
  assert (Hnone : filter isCodeLine (generateHeaderLines desc) = []).
  { rewrite Hshape. cbn [filter String.append].
    assert (H1 : forall rest, isCodeLine (String "$" rest) = false)
      by (intros rest; unfold isCodeLine; destruct (17 <=? _); reflexivity).
    rewrite H1. clear Hshape. induction (Description desc) as [|line rest IH]; [reflexivity|].
    cbn [map filter String.append].
    assert (H2 : isCodeLine (String "*" line) = false)
      by (unfold isCodeLine; destruct (17 <=? _); reflexivity).
    rewrite H2. exact IH. }
  split; [exact Hshape|]. split; [|split; [exact Hnone|]].
  - rewrite Hshape. cbn [length]. now rewrite length_map.
  - unfold payloadOf. now rewrite Hnone.
Qed.

Section Sequencer.

Variable E : Env.

Lemma codeLinesLoop_spec (build : list GeckoCode) : forall result,
  codeLinesLoop E build result
  = (blocks <- mapM (codeLinesOf E) build ;; Ok (result ++ concat blocks)).
Proof.
  induction build as [|g rest IH]; intros result; cbn [codeLinesLoop mapM bind].
  - now rewrite app_nil_r.
  - destruct (codeLinesOf E g); cbn [bind]; [|reflexivity|reflexivity].
    rewrite IH. destruct (mapM _ rest); cbn [bind concat]; [|reflexivity|reflexivity].
    now rewrite app_assoc.
Qed.

Lemma buildBody_sequence (codes : list CodeDescription) : forall w,
  fst (buildBody E codes w) = (blocks <- mapM (generateCodeLines E) codes ;; Ok tt)
  /\ (forall blocks,
        mapM (generateCodeLines E) codes = Ok blocks ->
        snd (buildBody E codes w)
        = mkWorld (output w ++ concat (map descriptionBlock (combine codes blocks)))
                  (written w)).
Proof.
  induction codes as [|code rest IH]; intros w; cbn [buildBody mapM bind].
  - split; [reflexivity|]. intros blocks H. injection H as <-. cbn.
    rewrite app_nil_r. now destruct w.
  - destruct (generateCodeLines E code) as [codeLines|p|c]; cbn [bind fst snd].
    + match goal with
      | |- context [buildBody E rest ?w'] => destruct (IH w') as [Hf Hs]
      end.
      rewrite Hf. split.
      * destruct (mapM (generateCodeLines E) rest); reflexivity.
      * intros blocks H.
        destruct (mapM (generateCodeLines E) rest) as [restBlocks| |]; cbn [bind] in H;
          try discriminate.
        injection H as <-. rewrite (Hs restBlocks eq_refl). cbn [output written].
        cbn [combine map concat]. unfold descriptionBlock at 2. cbn [fst snd].
        now rewrite <- !app_assoc.
    + split; [reflexivity | discriminate].
    + split; [reflexivity | discriminate].
Qed.

(** X9. The output sequence is built description by description, entry by
    entry, in declared order: the lines of a description are the
    concatenation of the lines of its entries, the build fails as soon as one
    entry fails, and after a build without failure the sequence holds, for
    each description in turn, its header lines, its entries' lines and one
    empty line. *)
Theorem output_sequence_order (codes : list CodeDescription) (w : World) :
  (forall desc,
     generateCodeLines E desc
     = (blocks <- mapM (codeLinesOf E) (Build desc) ;; Ok (concat blocks)))
  /\ fst (buildBody E codes w) = (blocks <- mapM (generateCodeLines E) codes ;; Ok tt)
  /\ (forall blocks,
        mapM (generateCodeLines E) codes = Ok blocks ->
        snd (buildBody E codes w)
        = mkWorld (output w ++ concat (map descriptionBlock (combine codes blocks)))
                  (written w)).
Proof.
  split.
  - intros desc. unfold generateCodeLines. now rewrite codeLinesLoop_spec.
  - apply buildBody_sequence.
Qed.

(** What [writeOutput] hands to [ioutil.WriteFile]. *)
Lemma writeOutput_bytes (outputFile : string) (w : World) :
  writeOutput E outputFile w
  = (Ok tt, WriteFile E outputFile (outputBytes E (output w) outputFile) w).
Proof.
  unfold writeOutput, writeGctOutput, writeTextOutput, outputBytes, payloadOf.
  destruct (String.eqb _ _); [|reflexivity].
  unfold gctBytesOf. rewrite gctLoop_spec. cbn [bind]. now rewrite <- app_assoc.
Qed.

Lemma writeAll_bytes (files : list string) : forall w,
  writeAll E files w
  = (Ok tt, mkWorld (output w)
                    (written w ++ map (fun f => (f, outputBytes E (output w) f))
                                      (filter (writable E) files))).
Proof.
  induction files as [|file rest IH]; intros w; cbn [writeAll map filter].
  - rewrite app_nil_r. now destruct w.
  - rewrite writeOutput_bytes, IH. unfold WriteFile.
    destruct (writable E file); cbn [output written map]; [|reflexivity].
    now rewrite <- app_assoc.
Qed.

(** X10. A run whose start-up and build do not fail ends with status 0. It
    leaves the configured output files whose write succeeded, each once, in
    the configured order, each from the same output sequence: for a name
    whose extension is [.gct] the header 00 D0 C0 DE 00 D0 C0 DE, the bytes
    of the code lines and the footer F0 00 00 00 00 00 00 00; for any other
    name the lines with a line feed between each two. *)
Theorem successful_run_outputs (config : Config) (blocks : list (list string)) :
  startup E = Ok config ->
  mapM (generateCodeLines E) (Codes config) = Ok blocks ->
  let sequence := concat (map descriptionBlock (combine (Codes config) blocks)) in
  main E
  = mkProcess 0
      (mkWorld sequence
         (map (fun f =>
                 (f, if String.eqb (Ext (GOOS E) f) ".gct"
                     then [x00; xd0; xc0; xde; x00; xd0; xc0; xde]
                          ++ concat (map codeLinePayload (filter isCodeLine sequence))
                          ++ [xf0; x00; x00; x00; x00; x00; x00; x00]
                     else list_byte_of_string (String.concat (String "010"%char "") sequence)))
              (filter (writable E) (OutputFiles config)))).
Proof.
  intros Hstart Hblocks sequence. unfold main, mainBody. rewrite Hstart.
  destruct (buildBody_sequence (Codes config) initialWorld) as [Hf Hs].
  specialize (Hs blocks Hblocks). rewrite Hblocks in Hf. cbn [bind] in Hf.
  destruct (buildBody E (Codes config) initialWorld) as [r w']. cbn [fst snd] in *.
  subst r w'. rewrite writeAll_bytes. reflexivity.
Qed.

(** X11. The build starts exactly when the command line has at least two
    words of which the second is [build], [codes.json] can be read and
    parsed, and the configuration names at least one output file. *)
Theorem startup_iff (config : Config) :
  startup E = Ok config
  <-> (2 <= length (Args E)
       /\ nth 1 (Args E) "" = "build"
       /\ (exists contents,
             ReadFile E "codes.json" = Some contents
             /\ Unmarshal E (elems contents) = Some config)
       /\ 1 <= length (OutputFiles config)).
Proof.
  unfold startup, readConfigFile. split.
  - intros H.
    destruct (Nat.ltb_spec (length (Args E)) 2); [discriminate|].
    destruct (String.eqb_spec (nth 1 (Args E) "") "build") as [Hb|]; [|discriminate].
    cbn [negb] in H.
    destruct (ReadFile E "codes.json") as [contents|]; [|discriminate].
    destruct (Unmarshal E (elems contents)) as [c|] eqn:Hu; [|discriminate].
    cbn [bind] in H.
    destruct (Nat.ltb_spec (length (OutputFiles c)) 1); [discriminate|].
    injection H as ->. repeat split; try assumption. now exists contents.
  - intros (Hargs & Hbuild & (contents & Hread & Hu) & Hout).
    destruct (Nat.ltb_spec (length (Args E)) 2); [lia|].
    rewrite Hbuild, String.eqb_refl, Hread, Hu. cbn [negb bind].
    destruct (Nat.ltb_spec (length (OutputFiles config)) 1); [lia | reflexivity].
Qed.

End Sequencer.

(** ** The assembler on Windows *)

Lemma isPrefix_spec (sep : list byte) : forall s,
  isPrefix sep s = true <-> firstn (length sep) s = sep /\ length sep <= length s.
Proof.
  induction sep as [|x sep IH]; intros s.
  - cbn. split; [split; [reflexivity | lia] | reflexivity].
  - destruct s as [|y s]; cbn [isPrefix firstn length].
    + split; [discriminate | intros [_ H]; lia].
    + split.
      * intros H. apply andb_prop in H as [Hxy Hs]. apply IH in Hs as [Hf Hl].
        apply Byte.byte_dec_bl in Hxy. subst y. rewrite Hf. split; [reflexivity | lia].
      * intros [Hf Hl]. injection Hf as -> Hf.
        rewrite (Byte.byte_dec_lb eq_refl). apply IH. split; [exact Hf | lia].
Qed.

(** [bytes.Index] finds the first place where the separator starts. *)
Lemma Index_first (sep : list byte) : forall s i,
  Index s sep = Some i ->
  i + length sep <= length s
  /\ firstn (length sep) (skipn i s) = sep
  /\ forall j, j < i -> firstn (length sep) (skipn j s) <> sep.
Proof.
  induction s as [|y s IH]; intros i H.
  - cbn [Index] in H. destruct (isPrefix sep []) eqn:Hp; [|discriminate].
    injection H as <-. apply isPrefix_spec in Hp as [Hf Hl].
    split; [cbn in *; lia|]. split; [exact Hf | intros j Hj; lia].
  - cbn [Index] in H. destruct (isPrefix sep (y :: s)) eqn:Hp.
    + injection H as <-. apply isPrefix_spec in Hp as [Hf Hl].
      split; [lia|]. split; [exact Hf | intros j Hj; lia].
    + destruct (Index s sep) as [i'|] eqn:Hi; [|discriminate]. injection H as <-.
      destruct (IH i' eq_refl) as (Hb & Hf & Hfirst).
      split; [cbn [length]; lia|]. split; [exact Hf|].
      intros [|j] Hj.
      * intros Heq. cbn [skipn] in Heq.
        assert (isPrefix sep (y :: s) = true); [|congruence].
        apply isPrefix_spec. split; [exact Heq|].
        rewrite <- Heq at 1. rewrite length_firstn. lia.
      * cbn [skipn]. apply Hfirst. lia.
Qed.

(** X12. On Windows the compiled code is what lies in [a.out] between offset
    52 and the first occurrence of the marker 00 2E 73 79 6D 74 61 62; when
    the marker is missing, or starts before offset 52, the call panics on the
    slice bounds. *)
Theorem compile_windows_extract (E : Env) (file : string) (source contents : GoBytes) :
  GOOS E = "windows" -> ReadFile E file = Some source -> tempWritable E = true ->
  toolchain E (elems source ++ crlf) = AOut contents ->
  match Index (elems contents) [x00; x2e; x73; x79; x6d; x74; x61; x62] with
  | Some codeEndIndex =>
      firstn 8 (skipn codeEndIndex (elems contents))
      = [x00; x2e; x73; x79; x6d; x74; x61; x62]
      /\ (forall j, j < codeEndIndex ->
            firstn 8 (skipn j (elems contents))
            <> [x00; x2e; x73; x79; x6d; x74; x61; x62])
      /\ if 52 <=? codeEndIndex
         then exists code,
                compile E file = Ok code
                /\ elems code = firstn (codeEndIndex - 52) (skipn 52 (elems contents))
                /\ len code = codeEndIndex - 52
         else compile E file = Panic boundsError
  | None => compile E file = Panic boundsError
  end.
Proof.
  intros Hos Hread Htemp Htool. unfold compile.
  rewrite Hread, Htemp, Hos. cbn [negb String.eqb Ascii.eqb Bool.eqb].
  unfold app_bytes. rewrite elems_append, Htool. unfold symtabMarker.
  destruct (Index (elems contents) [x00; x2e; x73; x79; x6d; x74; x61; x62])
    as [idx|] eqn:Hidx; [|reflexivity].
  destruct (Index_first _ _ _ Hidx) as (Hbound & Hat & Hfirst).
  split; [exact Hat|]. split; [exact Hfirst|].
  destruct (Nat.leb_spec 52 idx) as [Hle|Hlt].
  - destruct (slice_within contents 52 idx Hle) as [sp Hs].
    { unfold len. lia. }
    rewrite Hs. eexists. split; [reflexivity|]. cbn [elems]. split; [reflexivity|].
    unfold len. cbn [elems]. rewrite length_firstn, length_skipn. lia.
  - unfold slice. now replace (52 <=? idx) with false by (symmetry; apply Nat.leb_gt; lia).
Qed.

Lemma compile_windows_extract_witness :
  GOOS (windowsWorld (gekkoAOut twelveBytes)) = "windows"
  /\ ReadFile (windowsWorld (gekkoAOut twelveBytes)) "code.asm"
     = Some (fileBytes [x6e; x6f; x70])
  /\ tempWritable (windowsWorld (gekkoAOut twelveBytes)) = true
  /\ toolchain (windowsWorld (gekkoAOut twelveBytes))
       (elems (fileBytes [x6e; x6f; x70]) ++ crlf)
     = AOut (fileBytes (gekkoAOut twelveBytes))
  /\ Index (gekkoAOut twelveBytes) [x00; x2e; x73; x79; x6d; x74; x61; x62] = Some 64
  /\ exists code,
       compile (windowsWorld (gekkoAOut twelveBytes)) "code.asm" = Ok code
       /\ elems code = twelveBytes.
Proof.
  repeat (split; [reflexivity|]).
  pose proof (compile_windows_extract (windowsWorld (gekkoAOut twelveBytes)) "code.asm"
                (fileBytes [x6e; x6f; x70]) (fileBytes (gekkoAOut twelveBytes))
                eq_refl eq_refl eq_refl eq_refl) as H.
  change (Index (elems (fileBytes (gekkoAOut twelveBytes)))
            [x00; x2e; x73; x79; x6d; x74; x61; x62])
    with (Some 64) in H.
  destruct H as (_ & _ & code & Hcode & Helems & _).
  exists code. split; [exact Hcode|]. rewrite Helems. reflexivity.
Defined.

(** ** The assembler fails *)

(** X16. When the assembler ends with an error on a source that could be
    read and copied to the temporary file, on Windows, Linux or macOS, the
    call ends the process with status 1: so does every encoder that compiles
    the file, whatever the address. *)
Theorem assembler_failure_exit (E : Env) (file : string) (source : GoBytes) :
  ReadFile E file = Some source -> tempWritable E = true ->
  GOOS E = "windows" \/ GOOS E = "linux" \/ GOOS E = "darwin" ->
  toolchain E (elems source ++ [x0d; x0a]) = ToolFailed ->
  compile E file = Exit 1
  /\ (forall address, generateInjectionCodeLines E address file = Exit 1)
  /\ (forall address, generateReplaceCodeBlockLines E address file = Exit 1).
Proof.
  intros Hread Htemp Hos Htool.
  assert (H : compile E file = Exit 1).
  { unfold compile. rewrite Hread, Htemp. cbn [negb].
    unfold app_bytes. rewrite elems_append. unfold crlf. rewrite Htool.
    destruct Hos as [-> | [-> | ->]]; reflexivity. }
  split; [exact H|].
  split; intros address;
    [unfold generateInjectionCodeLines | unfold generateReplaceCodeBlockLines];
    now rewrite H.
Qed.

Lemma assembler_failure_exit_witness :
  ReadFile (failingAsWorld injectConfig) "code.asm" = Some (fileBytes [x6e; x6f; x70])
  /\ tempWritable (failingAsWorld injectConfig) = true
  /\ GOOS (failingAsWorld injectConfig) = "linux"
  /\ toolchain (failingAsWorld injectConfig)
       (elems (fileBytes [x6e; x6f; x70]) ++ [x0d; x0a]) = ToolFailed
  /\ compile (failingAsWorld injectConfig) "code.asm" = Exit 1.
Proof.
  repeat (split; [reflexivity|]).
  exact (proj1 (assembler_failure_exit (failingAsWorld injectConfig) "code.asm"
                  (fileBytes [x6e; x6f; x70]) eq_refl eq_refl
                  (or_intror (or_introl eq_refl)) eq_refl)).
Defined.

(** ** More on folders and blocks *)

Section Folders_more.

Variable E : Env.

(** X13. Without the recursive flag only the names in the folder count: what
    the entries are, and what lies in subfolders, changes nothing. With the
    flag, a subfolder that cannot be read fails the build; so does a folder
    that cannot be read, with or without it. *)
Theorem folder_flag_scope (folder : string) (contents : list (string * option Dir)) :
  (forall others,
     map fst others = map fst contents ->
     generateInjectionFolderLines E folder (DirEntries others) false
     = generateInjectionFolderLines E folder (DirEntries contents) false)
  /\ (forall name,
        In (name, Some DirError) contents ->
        isOk (generateInjectionFolderLines E folder (DirEntries contents) true) = false)
  /\ (forall isRecursive,
        generateInjectionFolderLines E folder DirError isRecursive
        = Panic (LogPanic "Failed to read directory." (Some OsError))).
Proof.
  split; [|split; [|reflexivity]].
  - intros others Hnames. cbn [generateInjectionFolderLines].
    rewrite !filesLoop_spec. unfold asmNames. now rewrite Hnames.
  - intros name Hin. cbn [generateInjectionFolderLines]. rewrite filesLoop_spec.
    destruct (mapM (injectFile E folder) (asmNames E contents)); cbn [bind];
      [|reflexivity|reflexivity].
    rewrite dirsLoop_spec.
    assert (Hfail : isOk (mapM
              (fun e => generateInjectionFolderLines E (filepath_Join E folder (fst e))
                          (snd e) true) (subDirs contents)) = false).
    { apply (mapM_fails _ _ (name, DirError)); [|reflexivity].
      unfold subDirs. apply in_flat_map. exists (name, Some DirError).
      split; [exact Hin | now left]. }
    destruct (mapM _ (subDirs contents)); [discriminate | reflexivity | reflexivity].
Qed.

(** A tagged header and the record lines of bytes that fill whole records:
    every line is a code line, annotated or not, and the payload is the
    header's two words followed by the bytes. *)
Lemma tagged_block_in_gct (head count annotation : string) (l : list byte) :
  String.length head = 8 -> validHex head = true ->
  String.length count = 8 -> validHex count = true ->
  length l mod 8 = 0 ->
  exists annotated,
    annotateFirst ((head +++ " " +++ count) :: recordsOf E l) annotation = Ok annotated
    /\ filter isCodeLine annotated = annotated
    /\ payloadOf annotated = fst (DecodeString head) ++ fst (DecodeString count) ++ l.
Proof.
  intros Hlh Hvh Hlc Hvc Hl. cbn [annotateFirst]. eexists. split; [reflexivity|].
  destruct (record_lines_round_trip_aux E l) as (Hrf & Hrp). rewrite Hrf in Hrp.
  destruct (annotated_words head count annotation) as [rest ->].
  destruct (codeLine_of_words head count rest " "%char Hlh Hlc) as [Hcode Hpay].
  rewrite Hvh, Hvc in Hcode. cbn [andb] in Hcode.
  unfold payloadOf. cbn [filter]. rewrite Hcode, Hrf. split; [reflexivity|].
  cbn [map concat]. now rewrite Hpay, (Hrp Hl), <- app_assoc.
Qed.

(** X14. The GCT bytes of a replaced binary block: for an address whose last
    6 characters are hex digits and a file of whole words shorter than
    [2^32] bytes, every line is a code line and the payload is 06 and the
    address, the padded length, then the padded bytes. *)
Theorem replace_binary_in_gct (address file a annotation : string) (s : GoBytes) :
  ReadFile E file = Some s -> str_from address 2 = Ok a ->
  String.length a = 6 -> validHex a = true ->
  len s mod 4 = 0 -> (Z.of_nat (len (packBlock E s)) < 2 ^ 32)%Z ->
  exists lines annotated,
    generateReplaceBinaryLines E address file = Ok lines
    /\ annotateFirst lines annotation = Ok annotated
    /\ filter isCodeLine annotated = annotated
    /\ payloadOf annotated
       = (x06 :: fst (DecodeString a))
         ++ fst (DecodeString (SprintfX 8 (Z.of_nat (len (packBlock E s)))))
         ++ elems (packBlock E s).
Proof.
  intros Hread Haddr Hla Hva Hwords Hsize.
  unfold generateReplaceBinaryLines, blockLines. rewrite Hread, Haddr. cbn [bind].
  pose proof (packBlock_aligned E s Hwords) as Hal.
  rewrite (recordLines_aligned E _ _ Hal). cbn [app].
  destruct (SprintfX8_hex (Z.of_nat (len (packBlock E s))) ltac:(lia)) as (_ & Hlc & Hvc).
  destruct (upper_hex E a Hva) as (Hula & Huva & Huda).
  assert (Hhead : validHex ("06" +++ upper E a) = true).
  { unfold validHex in *. cbn [String.append str_forallb String.length Nat.even].
    apply andb_prop in Huva as [Hf He]. now rewrite Hf, He. }
  destruct (tagged_block_in_gct ("06" +++ upper E a)
              (SprintfX 8 (Z.of_nat (len (packBlock E s)))) annotation
              (elems (packBlock E s))) as (annotated & Hann & Hfilter & Hpay);
    [cbn [String.append String.length]; lia | exact Hhead | exact Hlc | exact Hvc
    | exact Hal |].
  replace ("06" +++ upper E a +++ " " +++ SprintfX 8 (Z.of_nat (len (packBlock E s))))
    with (("06" +++ upper E a) +++ " " +++ SprintfX 8 (Z.of_nat (len (packBlock E s))))
    by str_equal.
  eexists. exists annotated. split; [reflexivity|]. split; [exact Hann|].
  split; [exact Hfilter|]. rewrite Hpay. f_equal.
  cbn [String.append DecodeString].
  change (15 <? fromHexChar "0")%N with false. change (15 <? fromHexChar "6")%N with false.
  cbv iota. destruct (DecodeString (upper E a)) as [x e] eqn:Hd.
  cbn [fst] in *. now rewrite Huda.
Qed.

End Folders_more.

(** *** Runs of the further properties *)

Lemma replace_line_in_gct_witness :
  str_from "80001234" 2 = Ok "001234"
  /\ String.length "001234" = 6 /\ validHex "001234" = true
  /\ String.length "6000abcd" = 8 /\ validHex "6000abcd" = true
  /\ exists line,
       generateReplaceCodeLine (asmWorld []) "80001234" "6000abcd" = Ok line
       /\ isCodeLine (addLineAnnotation line "nop") = true
       /\ codeLinePayload (addLineAnnotation line "nop")
          = [x04; x00; x12; x34; x60; x00; xab; xcd].
Proof.
  repeat (split; [reflexivity|]).
  exact (replace_line_in_gct (asmWorld []) "80001234" "6000abcd" "001234" "nop"
           eq_refl eq_refl eq_refl eq_refl eq_refl).
Defined.

Lemma record_lines_round_trip_witness :
  len (mkBytes [x38; x60; x00; x01; x4e; x80; x00; x20] []) mod 8 = 0
  /\ exists added,
       recordLines (asmWorld []) 8 (mkBytes [x38; x60; x00; x01; x4e; x80; x00; x20] []) 0
         ["C2001234 00000001"]
       = Ok ("C2001234 00000001" :: added)
       /\ added = ["38600001 4E800020"]
       /\ gctBytesOf added
          = Ok [x00; xd0; xc0; xde; x00; xd0; xc0; xde;
                x38; x60; x00; x01; x4e; x80; x00; x20;
                xf0; x00; x00; x00; x00; x00; x00; x00].
Proof.
  split; [reflexivity|].
  destruct (record_lines_round_trip (asmWorld [])
              (mkBytes [x38; x60; x00; x01; x4e; x80; x00; x20] []) ["C2001234 00000001"]
              eq_refl) as (added & Hrun & _ & _ & Hgct).
  exists added. split; [exact Hrun|]. split; [|exact Hgct].
  change (Ok ["C2001234 00000001"; "38600001 4E800020"]
          = Ok (["C2001234 00000001"] ++ added)) in Hrun.
  now injection Hrun as <-.
Defined.

Lemma inject_block_in_gct_witness :
  compile (asmWorld twelveBytes) "code.asm" = Ok (fileBytes twelveBytes)
  /\ str_from "80001234" 2 = Ok "001234"
  /\ String.length "001234" = 6 /\ validHex "001234" = true
  /\ len (fileBytes twelveBytes) <> 0 /\ len (fileBytes twelveBytes) <> 4
  /\ len (fileBytes twelveBytes) mod 4 = 0
  /\ (Z.of_nat (len (packInjection (asmWorld twelveBytes) (fileBytes twelveBytes)) / 8)
      < 2 ^ 32)%Z
  /\ exists lines annotated,
       generateInjectionCodeLines (asmWorld twelveBytes) "80001234" "code.asm" = Ok lines
       /\ annotateFirst lines "hook" = Ok annotated
       /\ filter isCodeLine annotated = annotated
       /\ payloadOf annotated
          = [xc2; x00; x12; x34; x00; x00; x00; x02;
             x38; x60; x00; x01; x90; x7f; x00; x10;
             x4e; x80; x00; x20; x00; x00; x00; x00].
Proof.
  split; [reflexivity|]. split; [reflexivity|]. split; [reflexivity|].
  split; [reflexivity|]. split; [discriminate|]. split; [discriminate|].
  split; [reflexivity|]. split; [reflexivity|].
  exact (inject_block_in_gct (asmWorld twelveBytes) "80001234" "code.asm" "001234" "hook"
           (fileBytes twelveBytes) eq_refl eq_refl eq_refl eq_refl
           ltac:(discriminate) ltac:(discriminate) eq_refl eq_refl).
Defined.

Lemma inject_block_terminator_witness :
  compile (asmWorld twelveBytes) "code.asm" = Ok (fileBytes twelveBytes)
  /\ str_from "80001234" 2 = Ok "001234"
  /\ len (fileBytes twelveBytes) <> 0 /\ len (fileBytes twelveBytes) <> 4
  /\ len (fileBytes twelveBytes) mod 4 = 0
  /\ exists lines left,
       generateInjectionCodeLines (asmWorld twelveBytes) "80001234" "code.asm" = Ok lines
       /\ length lines = 1 + len (packInjection (asmWorld twelveBytes)
                                    (fileBytes twelveBytes)) / 8
       /\ 2 <= length lines
       /\ last lines "" = left +++ " 00000000".
Proof.
  split; [reflexivity|]. split; [reflexivity|].
  split; [discriminate|]. split; [discriminate|]. split; [reflexivity|].
  exact (inject_block_terminator (asmWorld twelveBytes) "80001234" "code.asm" "001234"
           (fileBytes twelveBytes) eq_refl eq_refl
           ltac:(discriminate) ltac:(discriminate) eq_refl).
Defined.

Lemma replace_binary_in_gct_witness :
  ReadFile (asmWorld twelveBytes) "patch.bin" = Some (fileBytes twelveBytes)
  /\ str_from "80001234" 2 = Ok "001234"
  /\ String.length "001234" = 6 /\ validHex "001234" = true
  /\ len (fileBytes twelveBytes) mod 4 = 0
  /\ (Z.of_nat (len (packBlock (asmWorld twelveBytes) (fileBytes twelveBytes))) < 2 ^ 32)%Z
  /\ exists lines annotated,
       generateReplaceBinaryLines (asmWorld twelveBytes) "80001234" "patch.bin" = Ok lines
       /\ annotateFirst lines "" = Ok annotated
       /\ filter isCodeLine annotated = annotated
       /\ payloadOf annotated
          = [x06; x00; x12; x34; x00; x00; x00; x10;
             x38; x60; x00; x01; x90; x7f; x00; x10;
             x4e; x80; x00; x20; x60; x00; x00; x00].
Proof.
  repeat (split; [reflexivity|]).
  exact (replace_binary_in_gct (asmWorld twelveBytes) "80001234" "patch.bin" "001234" ""
           (fileBytes twelveBytes) eq_refl eq_refl eq_refl eq_refl eq_refl eq_refl).
Defined.

Lemma successful_run_outputs_witness :
  startup (buildWorld ["gecko"; "build"] [] nopConfig) = Ok nopConfig
  /\ mapM (generateCodeLines (buildWorld ["gecko"; "build"] [] nopConfig)) (Codes nopConfig)
     = Ok [["04001234 60000000 #nop"]]
  /\ written (final (main (buildWorld ["gecko"; "build"] [] nopConfig)))
     = [("codes.txt",
         list_byte_of_string
           ("$Name [Author]" +++ String "010"%char "" +++ "*Desc" +++ String "010"%char ""
            +++ "04001234 60000000 #nop" +++ String "010"%char ""));
        ("codes.gct",
         [x00; xd0; xc0; xde; x00; xd0; xc0; xde;
          x04; x00; x12; x34; x60; x00; x00; x00;
          xf0; x00; x00; x00; x00; x00; x00; x00])].
Proof.
  split; [reflexivity|]. split; [reflexivity|].
  rewrite (successful_run_outputs (buildWorld ["gecko"; "build"] [] nopConfig) nopConfig
             [["04001234 60000000 #nop"]] eq_refl eq_refl).
  reflexivity.
Defined.

(** ** Output files by extension *)

Lemma Ext_dot_suffix (goos p e : string) :
  str_existsb (isPathSeparator goos) e = false ->
  str_existsb (Ascii.eqb ".") e = false ->
  Ext goos (p +++ String "." e) = String "." e.
Proof.
  intros Hsep Hdot.
  assert (He : Ext goos e = "").
  { induction e as [|c e IH]; [reflexivity|].
    cbn [str_existsb] in Hsep, Hdot.
    apply orb_false_elim in Hsep as [_ Hsep]. apply orb_false_elim in Hdot as [Hc Hdot].
    cbn [Ext]. rewrite (IH Hsep Hdot), Hsep.
    rewrite Ascii.eqb_sym in Hc. now rewrite Hc. }
  induction p as [|c p IH].
  - cbn [String.append Ext]. rewrite He, Hsep. reflexivity.
  - cbn [String.append Ext]. now rewrite IH.
Qed.

(** X15. For a file whose name ends in [.gct], the bytes handed to
    [ioutil.WriteFile] are the GCT bytes: the header 00 D0 C0 DE 00 D0 C0 DE,
    the bytes of the code lines of the output sequence and the footer
    F0 00 00 00 00 00 00 00, 16 bytes plus 8 for each code line. The test is
    on the exact extension: for a name that ends in [.GCT] they are the
    text, the lines with a line feed between each two. The file is left when
    the write succeeds; when it fails nothing changes and nothing is
    raised. *)
Theorem gct_extension (E : Env) (name : string) (w : World) :
  writeOutput E (name +++ ".gct") w
  = (Ok tt,
     if writable E (name +++ ".gct")
     then mkWorld (output w)
            (written w
             ++ [(name +++ ".gct",
                  [x00; xd0; xc0; xde; x00; xd0; xc0; xde]
                  ++ concat (map codeLinePayload (filter isCodeLine (output w)))
                  ++ [xf0; x00; x00; x00; x00; x00; x00; x00])])
     else w)
  /\ length ([x00; xd0; xc0; xde; x00; xd0; xc0; xde]
             ++ concat (map codeLinePayload (filter isCodeLine (output w)))
             ++ [xf0; x00; x00; x00; x00; x00; x00; x00])
     = 16 + 8 * length (filter isCodeLine (output w))
  /\ writeOutput E (name +++ ".GCT") w
     = (Ok tt,
        if writable E (name +++ ".GCT")
        then mkWorld (output w)
               (written w
                ++ [(name +++ ".GCT",
                     list_byte_of_string (String.concat (String "010"%char "") (output w)))])
        else w).
Proof.
  assert (Hsep : forall e, e = "gct" \/ e = "GCT" ->
            str_existsb (isPathSeparator (GOOS E)) e = false).
  { intros e [->| ->]; cbn [str_existsb]; unfold isPathSeparator;
      cbn [Ascii.eqb Bool.eqb orb andb]; now rewrite !andb_false_r. }
  split; [|split].
  - rewrite writeOutput_bytes. unfold outputBytes, WriteFile.
    now rewrite (Ext_dot_suffix (GOOS E) name "gct" (Hsep _ (or_introl eq_refl)) eq_refl).
  - rewrite !length_app, length_payloads. cbn [length]. lia.
  - rewrite writeOutput_bytes. unfold outputBytes, WriteFile.
    now rewrite (Ext_dot_suffix (GOOS E) name "GCT" (Hsep _ (or_intror eq_refl)) eq_refl).
Qed.
